(** * Dinwiddie_deduper: a shallow embedding of the PCR-duplicate remover

    The development follows [Dinwiddie_deduper.py]: the class [sam_info]
    (field extraction, soft-clip adjustment, flag decoding, molecular tag
    extraction), the streaming pass [inter_sam] over the lines of a SAM file,
    the two writers of [dedup_writer], and the summary of the main block.

    Conventions of the model.
    - A Python [str] is a [string]; a character is a code point below 256.
    - An uncaught Python exception is a value [Raise e]; every function of
      the source that can raise returns a [result].
    - The process-wide globals ([NR], [UnMap], [badBc], [place], [peRemo],
      [tot]) and the output file are the fields of one record [state] that
      is threaded through the pass.
    - The dictionary [place] is an association list in insertion order, as
      a Python dict iterates; assigning to a key that is present keeps its
      position.
    - Messages sent to the log file are not modelled, but evaluating the
      arguments of a log call is. *)

From Stdlib Require Import ZArith List String Ascii Bool Lia Permutation.
Import ListNotations.
Local Open Scope string_scope.
Local Open Scope Z_scope.

(** ** Exceptions *)

Inductive exn : Type :=
| IndexError
| ValueError
| NameError.

Inductive result (A : Type) : Type :=
| Ok (a : A)
| Raise (e : exn).

Arguments Ok {A} a.
Arguments Raise {A} e.

Definition bind {A B : Type} (m : result A) (f : A -> result B) : result B :=
  match m with
  | Ok a => f a
  | Raise e => Raise e
  end.

Notation "x <- m ;; k" := (bind m (fun x => k))
  (at level 100, m at next level, right associativity).

Definition is_ok {A : Type} (m : result A) : bool :=
  match m with
  | Ok _ => true
  | Raise _ => false
  end.

(** ** The Python primitives the program uses *)

Module Py.

Definition chr (n : nat) : ascii := ascii_of_nat n.
Definition TAB : ascii := chr 9.
Definition NL : ascii := chr 10.

(** [str.isspace] on code points below 256: the characters that
    [str.split()] separates on. *)
Definition is_space (c : ascii) : bool :=
  let n := nat_of_ascii c in
  ((9 <=? n) && (n <=? 13) || (28 <=? n) && (n <=? 32)
   || (n =? 133) || (n =? 160))%nat.

Definition is_digit (c : ascii) : bool :=
  let n := nat_of_ascii c in ((48 <=? n) && (n <=? 57))%nat.

Definition digit_val (c : ascii) : Z := Z.of_nat (nat_of_ascii c) - 48.

(** [s.split(sep)] for a one-character separator. *)
Fixpoint split_on (sep : ascii) (s : string) : list string :=
  match s with
  | EmptyString => [EmptyString]
  | String c r =>
      if Ascii.eqb c sep then EmptyString :: split_on sep r
      else match split_on sep r with
           | h :: t => String c h :: t
           | [] => [String c EmptyString]
           end
  end.

(** [s.split()]: maximal runs of characters that are not white space. *)
Fixpoint split_ws (s : string) : list string :=
  match s with
  | EmptyString => []
  | String c r =>
      if is_space c then split_ws r
      else match r with
           | EmptyString => [String c EmptyString]
           | String d _ =>
               if is_space d then String c EmptyString :: split_ws r
               else match split_ws r with
                    | h :: t => String c h :: t
                    | [] => [String c EmptyString]
                    end
           end
  end.

(** [l[i]] for a non-negative literal index. *)
Definition item {A : Type} (l : list A) (i : nat) : result A :=
  match nth_error l i with
  | Some a => Ok a
  | None => Raise IndexError
  end.

(** [l[-1]]. *)
Definition item_last {A : Type} (l : list A) : result A :=
  match rev l with
  | a :: _ => Ok a
  | [] => Raise IndexError
  end.

(** [s[i]] for a non-negative literal index. *)
Definition char_at (s : string) (i : nat) : result ascii :=
  match String.get i s with
  | Some c => Ok c
  | None => Raise IndexError
  end.

(** [s[:n]]; a slice never raises. *)
Definition slice_to (n : nat) (s : string) : string := substring 0 n s.

(** [s.startswith(c)] for a one-character prefix. *)
Definition startswith (c : ascii) (s : string) : bool :=
  match s with
  | String d _ => Ascii.eqb d c
  | EmptyString => false
  end.

(** The white space that [int()] drops around a literal, on code points
    below 256: unlike [str.isspace] it leaves out 28 to 31. *)
Definition is_int_space (c : ascii) : bool :=
  let n := nat_of_ascii c in
  ((9 <=? n) && (n <=? 13) || (n =? 32) || (n =? 133) || (n =? 160))%nat.

Fixpoint lstrip (s : string) : string :=
  match s with
  | String c r => if is_int_space c then lstrip r else s
  | EmptyString => EmptyString
  end.

Fixpoint rstrip (s : string) : string :=
  match s with
  | EmptyString => EmptyString
  | String c r =>
      match rstrip r with
      | EmptyString =>
          if is_int_space c then EmptyString else String c EmptyString
      | r' => String c r'
      end
  end.

(** The digits of a base-10 literal as [int()] reads them: at least one
    digit, and single underscores only between two digits. *)
Fixpoint digits (acc : Z) (after_digit : bool) (s : string) : option Z :=
  match s with
  | EmptyString => if after_digit then Some acc else None
  | String c r =>
      if is_digit c then digits (10 * acc + digit_val c) true r
      else if Ascii.eqb c "_"%char
           then (if after_digit then digits acc false r else None)
           else None
  end.

(** [int(s)] for a string [s]: surrounding white space is dropped, one
    sign is allowed, anything else raises [ValueError]. The limit that
    recent interpreters put on the number of digits is not modelled. *)
Definition int_of_str (s : string) : result Z :=
  let t := rstrip (lstrip s) in
  let parsed :=
    match t with
    | String "+"%char r => digits 0 false r
    | String "-"%char r => option_map Z.opp (digits 0 false r)
    | _ => digits 0 false t
    end in
  match parsed with
  | Some z => Ok z
  | None => Raise ValueError
  end.

(** The two kinds of value that [soft_check] hands to [int()]. *)
Inductive value : Type :=
| VInt (z : Z)
| VStr (s : string).

Definition int (v : value) : result Z :=
  match v with
  | VInt z => Ok z
  | VStr s => int_of_str s
  end.

(** [a < b] on strings: lexicographic on code points. *)
Definition str_lt (a b : string) : bool := String.ltb a b.

(** [a < b] on 2-tuples of strings: the first component that differs
    decides. *)
Definition pair_lt (a b : string * string) : bool :=
  if String.eqb (fst a) (fst b) then str_lt (snd a) (snd b)
  else str_lt (fst a) (fst b).

(** [sorted(l)] on values that are totally ordered by [lt]: a stable
    insertion sort. *)
Fixpoint insert_sorted {A : Type} (lt : A -> A -> bool) (x : A) (l : list A)
  : list A :=
  match l with
  | [] => [x]
  | y :: t => if lt x y then x :: l else y :: insert_sorted lt x t
  end.

Definition sorted {A : Type} (lt : A -> A -> bool) (l : list A) : list A :=
  fold_left (fun acc x => insert_sorted lt x acc) l [].

End Py.

(** Joining fields with tabs, to write concrete SAM lines. *)
Definition tabbed (fields : list string) : string :=
  String.concat (String Py.TAB EmptyString) fields.

Definition sam_line (fields : list string) : string :=
  tabbed fields ++ String Py.NL EmptyString.

(** ** The command line and the globals of the main block *)

(** The options read by the code under verification ([args.umi],
    [args.qual], [args.pe]); sorting is done by an external tool before the
    pass and is not part of the model. *)
Record Args : Type := {
  umi : bool;
  qual : bool;
  pe : bool
}.

(** The key of the dictionary [place]:
    [(barcode, start_pos, + or -, contig)]. *)
Definition key : Type := (string * Z * string * string)%type.

Definition key_eqb (a b : key) : bool :=
  let '(bc1, p1, s1, c1) := a in
  let '(bc2, p2, s2, c2) := b in
  String.eqb bc1 bc2 && Z.eqb p1 p2 && String.eqb s1 s2 && String.eqb c1 c2.

(** A value of [place]: [(line, qual_score)]. *)
Definition entry : Type := (string * string)%type.

(** A Python dict, in insertion order. *)
Definition dict : Type := list (key * entry).

Fixpoint dict_get (k : key) (d : dict) : option entry :=
  match d with
  | [] => None
  | (k', v) :: t => if key_eqb k k' then Some v else dict_get k t
  end.

(** [d[k] = v]: a present key keeps its place, a new key goes last. *)
Fixpoint dict_set (k : key) (v : entry) (d : dict) : dict :=
  match d with
  | [] => [(k, v)]
  | (k', v') :: t =>
      if key_eqb k k' then (k', v) :: t else (k', v') :: dict_set k v t
  end.

Definition dict_values (d : dict) : list entry := map snd d.
Definition dict_keys (d : dict) : list key := map fst d.

(** The globals, and the text appended to the output file, one element for
    each line text written. *)
Record state : Type := {
  NR : Z;
  UnMap : Z;
  badBc : Z;
  peRemo : Z;
  tot : Z;
  place : dict;
  dedup : list string
}.

Definition initial_state : state :=
  {| NR := 0; UnMap := 0; badBc := 0; peRemo := 0; tot := 0;
     place := []; dedup := [] |}.

(** The assignments to the globals. *)
Definition incr_NR (st : state) : state :=
  {| NR := NR st + 1; UnMap := UnMap st; badBc := badBc st;
     peRemo := peRemo st; tot := tot st; place := place st;
     dedup := dedup st |}.

Definition incr_UnMap (st : state) : state :=
  {| NR := NR st; UnMap := UnMap st + 1; badBc := badBc st;
     peRemo := peRemo st; tot := tot st; place := place st;
     dedup := dedup st |}.

Definition incr_badBc (st : state) : state :=
  {| NR := NR st; UnMap := UnMap st; badBc := badBc st + 1;
     peRemo := peRemo st; tot := tot st; place := place st;
     dedup := dedup st |}.

Definition add_peRemo (st : state) (n : Z) : state :=
  {| NR := NR st; UnMap := UnMap st; badBc := badBc st;
     peRemo := peRemo st + n; tot := tot st; place := place st;
     dedup := dedup st |}.

Definition set_place (st : state) (d : dict) : state :=
  {| NR := NR st; UnMap := UnMap st; badBc := badBc st;
     peRemo := peRemo st; tot := tot st; place := d; dedup := dedup st |}.

(** [dedup.write] of the given line texts. *)
Definition write (st : state) (lines : list string) : state :=
  {| NR := NR st; UnMap := UnMap st; badBc := badBc st;
     peRemo := peRemo st; tot := tot st; place := place st;
     dedup := (dedup st ++ lines)%list |}.

(** The attributes of a [sam_info] object. *)
Record sam_info : Type := {
  self_line : string;
  self_contig : string;
  self_start_pos : Z;
  self_qual_score : string;
  self_strand : string * option string;
  self_BC : string
}.

(** The module never assigns the global [COUNT] that [bit_check] reads
    while it formats its log message: the lookup raises [NameError]. *)
Definition global_COUNT : result Z := Raise NameError.

Definition fields (line : string) : list string := Py.split_on Py.TAB line.

(** ** class sam_info *)

(** [soft_check]: the soft clip amount read from the first characters of
    the CIGAR string. *)
Definition soft_check (align : string) : result Z :=
  soft_amt <-
    (c1 <- Py.char_at align 1 ;;
     if Ascii.eqb c1 "S"%char then
       c0 <- Py.char_at align 0 ;;
       Ok (Py.VStr (String c0 EmptyString))
     else
       c2 <- Py.char_at align 2 ;;
       if Ascii.eqb c2 "S"%char then Ok (Py.VStr (Py.slice_to 2 align))
       else Ok (Py.VInt 0)) ;;
  Py.int soft_amt.

(** [start_pos]: the left most mapping position, less the soft clip. *)
Definition start_pos (line : string) : result Z :=
  f3 <- Py.item (fields line) 3 ;;
  pos <- Py.int_of_str f3 ;;
  align <- Py.item (fields line) 5 ;;
  soft <- soft_check align ;;
  Ok (if 0 <? soft then pos - soft else pos).

(** [bit_check]: strand and mapping status from the flag. *)
Definition bit_check (line : string) : result (string * option string) :=
  f1 <- Py.item (fields line) 1 ;;
  flag <- Py.int_of_str f1 ;;
  umap <-
    (if negb (Z.land flag 4 =? 4) && negb (Z.land flag 256 =? 256)
     then Ok (Some EmptyString)
     else
       _ <- global_COUNT ;;
       _ <- Py.item (fields line) 0 ;;
       Ok None) ;;
  let strand := if Z.land flag 16 =? 16 then "-" else "+" in
  Ok (strand, umap).

Section Deduper.

Variable args : Args.

(** The lines of [STL96.txt], stripped; the file is not part of the
    sources, so the list is a parameter. It is empty when [args.umi] is
    off. *)
Variable umi_list : list string.

(** The tag as found in the read name: the last colon-separated piece of
    the first white-space-separated word of the line. *)
Definition raw_tag (line : string) : result string :=
  word <- Py.item (Py.split_ws line) 0 ;;
  Py.item_last (Py.split_on ":"%char word).

(** [barcode_get]. *)
Definition barcode_get (line : string) : result string :=
  BC <- raw_tag line ;;
  if umi args then
    if existsb (String.eqb BC) umi_list then Ok BC
    else
      _ <- Py.item (fields line) 0 ;;
      Ok EmptyString
  else Ok BC.

(** [__init__], in the order of its assignments. *)
Definition sam_info_init (line : string) : result sam_info :=
  contig <- Py.item (fields line) 2 ;;
  sp <- start_pos line ;;
  qs <- Py.item (fields line) 4 ;;
  st <- bit_check line ;;
  bc <- barcode_get line ;;
  Ok {| self_line := line; self_contig := contig; self_start_pos := sp;
        self_qual_score := qs; self_strand := st; self_BC := bc |}.

Definition key_of (r : sam_info) : key :=
  (self_BC r, self_start_pos r, fst (self_strand r), self_contig r).

(** ** inter_sam *)

(** The body of the loop over the lines of the file. The test
    [line.BC is ""] compares with the empty string object, which CPython
    shares between all empty strings: it is string equality. *)
Definition inter_sam_line (st : state) (line : string) : result state :=
  if Py.startswith "@"%char line then Ok (write st [line])
  else
    let st := incr_NR st in
    r <- sam_info_init line ;;
    let k := key_of r in
    match snd (self_strand r) with
    | None => Ok (incr_UnMap st)
    | Some _ =>
        if String.eqb (self_BC r) EmptyString then Ok (incr_badBc st)
        else
          match dict_get k (place st) with
          | Some cur =>
              if qual args then
                if Py.str_lt (snd cur) (self_qual_score r)
                then Ok (set_place st
                           (dict_set k (self_line r, self_qual_score r)
                              (place st)))
                else Ok st
              else Ok st
          | None =>
              Ok (set_place st
                    (dict_set k (self_line r, self_qual_score r) (place st)))
          end
    end.

(** The pass: an exception ends it, and with it the process. *)
Fixpoint inter_sam (st : state) (sorted_sam : list string) : result state :=
  match sorted_sam with
  | [] => Ok st
  | line :: rest =>
      st' <- inter_sam_line st line ;;
      inter_sam st' rest
  end.

(** ** class dedup_writer *)

Definition single_write (st : state) : state :=
  write st (map fst (dict_values (place st))).

(** How a run of the paired-end loop ends. *)
Inductive outcome : Type :=
| Finished
| Aborted (e : exn)
| OutOfFuel.

(** The test of the [if] in [pair_write]: position of the first value
    against the mate position of the second. *)
Definition pair_test (first2vals : list entry) : result (entry * entry * bool) :=
  a <- Py.item first2vals 0 ;;
  pos <- Py.item (fields (fst a)) 3 ;;
  b <- Py.item first2vals 1 ;;
  pnext <- Py.item (fields (fst b)) 7 ;;
  Ok (a, b, String.eqb pos pnext).

(** The [while] loop of [pair_write]; [fuel] bounds the number of
    iterations. The single [write] of the two concatenated line texts
    adds both to the output, in this order. *)
Fixpoint pair_loop (fuel : nat) (firstvals : list entry) (len_place : nat)
    (pecount : nat) (st : state) : state * outcome :=
  if Z.of_nat pecount <? Z.of_nat len_place - 1 then
    match fuel with
    | O => (st, OutOfFuel)
    | S fuel' =>
        let first2vals := firstn 2 (skipn pecount firstvals) in
        match pair_test first2vals with
        | Raise e => (st, Aborted e)
        | Ok (a, b, true) =>
            pair_loop fuel' firstvals len_place (pecount + 2)
              (add_peRemo (write st [fst a; fst b]) 2)
        | Ok (_, _, false) =>
            pair_loop fuel' firstvals len_place (pecount + 1) st
        end
    end
  else (st, Finished).

Definition pair_write (st : state) : state * outcome :=
  let firstvals := Py.sorted Py.pair_lt (dict_values (place st)) in
  pair_loop (List.length (place st)) firstvals (List.length (place st)) 0 st.

(** ** The main block, after the options are read *)

Definition add_tot (st : state) : state :=
  {| NR := NR st; UnMap := UnMap st; badBc := badBc st;
     peRemo := peRemo st; tot := tot st + Z.of_nat (List.length (place st));
     place := place st; dedup := dedup st |}.

(** The globals and the output file when the pass stops: after the last
    line, or at the exception. In the body of the loop only [sam_info(line)]
    can raise, and it is called right after [NR += 1]: the header lines
    written and the entries stored before the failing line stay as they
    are. *)
Fixpoint inter_sam_stop (st : state) (sorted_sam : list string) : state :=
  match sorted_sam with
  | [] => st
  | line :: rest =>
      match inter_sam_line st line with
      | Ok st' => inter_sam_stop st' rest
      | Raise _ => incr_NR st
      end
  end.

(** [main sam] is the state in which the summary is logged, or the
    exception that ended the run with the state the run was in. *)
Definition main (sam : list string) : state * outcome :=
  match inter_sam initial_state sam with
  | Raise e => (inter_sam_stop initial_state sam, Aborted e)
  | Ok st =>
      if negb (pe args) then (add_tot (single_write st), Finished)
      else
        match pair_write st with
        | (st', Finished) => (add_tot st', Finished)
        | other => other
        end
  end.

End Deduper.

(** The figures of the summary message. *)
Definition total_processed (st : state) : Z := NR st.
Definition total_unmapped (st : state) : Z := UnMap st.
Definition total_unidentified (st : state) : Z := badBc st.
Definition duplicates_removed (st : state) : Z := NR st - UnMap st - tot st.
Definition reads_retained (a : Args) (st : state) : Z :=
  if pe a then peRemo st else tot st.
Definition non_paired (st : state) : Z := tot st - peRemo st.

(** ** Notions used to state the properties *)

Section Notions.

Variable args : Args.
Variable umi_list : list string.

(** A record takes part in the deduplication when it is mapped, not a
    secondary alignment, and carries a tag. *)
Definition usable (r : sam_info) : bool :=
  match snd (self_strand r) with
  | Some _ => negb (String.eqb (self_BC r) EmptyString)
  | None => false
  end.

(** The records of a stream that reach the dictionary with key [k], as
    [(line, qual_score)], in stream order. *)
Fixpoint colliding (k : key) (sam : list string) : list entry :=
  match sam with
  | [] => []
  | line :: rest =>
      if Py.startswith "@"%char line then colliding k rest
      else
        match sam_info_init args umi_list line with
        | Ok r =>
            if usable r && key_eqb k (key_of r)
            then (self_line r, self_qual_score r) :: colliding k rest
            else colliding k rest
        | Raise _ => colliding k rest
        end
  end.

(** What the dictionary holds for a key after one more colliding record. *)
Definition keep (cur : option entry) (new : entry) : option entry :=
  match cur with
  | None => Some new
  | Some c =>
      if qual args && Py.str_lt (snd c) (snd new) then Some new else Some c
  end.

(** The entries of the dictionary stored under [k]. *)
Definition retained (k : key) (st : state) : list (key * entry) :=
  filter (fun e => key_eqb k (fst e)) (place st).

End Notions.

(** [a >= b] on strings. *)
Definition str_ge (a b : string) : bool := negb (Py.str_lt a b).

(** The walk of the paired-end writer as the specification words it: two
    at a time over the sorted values, both emitted and two steps forward
    when the cross-reference holds, one step forward when it does not, and
    the end as soon as fewer than two values are left. *)
Fixpoint walk_pairs (vals : list entry) (st : state) : state * outcome :=
  match vals with
  | a :: ((b :: rest) as tl) =>
      match pair_test [a; b] with
      | Raise e => (st, Aborted e)
      | Ok (_, _, true) =>
          walk_pairs rest (add_peRemo (write st [fst a; fst b]) 2)
      | Ok (_, _, false) => walk_pairs tl st
      end
  | _ => (st, Finished)
  end.

(** Output made of consecutive pairs [(a, b)] in which field 4 of [a] is
    field 8 of [b]. *)
Inductive paired_lines : list string -> Prop :=
| paired_nil : paired_lines []
| paired_cons (a b : string) (rest : list string) (p : string) :
    Py.item (fields a) 3 = Ok p ->
    Py.item (fields b) 7 = Ok p ->
    paired_lines rest ->
    paired_lines (a :: b :: rest).

(** ** Concrete inputs *)

Module Sample.

Definition quality_mode : Args := {| umi := false; qual := true; pe := false |}.
Definition first_seen_mode : Args := {| umi := false; qual := false; pe := false |}.
Definition umi_mode : Args := {| umi := true; qual := false; pe := false |}.
Definition paired_mode : Args := {| umi := false; qual := false; pe := true |}.

Definition known_tags : list string := ["AACCCG"; "AAGCTC"].

(** Key K1: tag AAGCTC, adjusted position 500, strand +, contig chr1. *)
Definition K1 : key := ("AAGCTC", 500, "+", "chr1").

Definition k1_q30 : string :=
  sam_line ["r1:AAGCTC"; "0"; "chr1"; "500"; "30"; "50M"; "*"; "0"; "0";
            "ACGT"; "IIII"].
Definition k1_q40 : string :=
  sam_line ["r2:AAGCTC"; "0"; "chr1"; "505"; "40"; "5S45M"; "*"; "0"; "0";
            "ACGT"; "IIII"].
Definition k1_q9 : string :=
  sam_line ["r5:AAGCTC"; "0"; "chr1"; "500"; "9"; "50M"; "*"; "0"; "0";
            "ACGT"; "IIII"].
Definition k2_unique : string :=
  sam_line ["r3:GGCTAA"; "16"; "chr1"; "600"; "35"; "50M"; "*"; "0"; "0";
            "ACGT"; "IIII"].
(** An unmapped record (flag 4) that carries coordinates and a CIGAR. *)
Definition unmapped : string :=
  sam_line ["r4:AAGCTC"; "4"; "chr1"; "700"; "0"; "50M"; "*"; "0"; "0";
            "ACGT"; "IIII"].
(** An unmapped record as aligners usually write it. *)
Definition unmapped_star : string :=
  sam_line ["r4:AAGCTC"; "4"; "*"; "0"; "0"; "*"; "*"; "0"; "0";
            "ACGT"; "IIII"].
Definition secondary : string :=
  sam_line ["r6:AAGCTC"; "256"; "chr1"; "700"; "0"; "50M"; "*"; "0"; "0";
            "ACGT"; "IIII"].
Definition short_cigar : string :=
  sam_line ["r7:AAGCTC"; "0"; "chr1"; "100"; "30"; "5M"; "*"; "0"; "0";
            "ACGTA"; "IIIII"].
Definition clipped_5 : string :=
  sam_line ["r8:AAGCTC"; "0"; "chr1"; "100"; "30"; "5S45M"; "*"; "0"; "0";
            "ACGT"; "IIII"].
Definition unknown_tag : string :=
  sam_line ["r9:ZZZZZZ"; "0"; "chr1"; "100"; "30"; "50M"; "*"; "0"; "0";
            "ACGT"; "IIII"].
Definition known_tag : string :=
  sam_line ["r10:AACCCG"; "0"; "chr1"; "100"; "30"; "50M"; "*"; "0"; "0";
            "ACGT"; "IIII"].
Definition missing_fields : string := sam_line ["r11:AAGCTC"; "0"].

Definition header : string := "@HD" ++ String Py.NL EmptyString.

(** Two mates: field 4 of the first is field 8 of the second. *)
Definition mate1 : string :=
  sam_line ["p1:AAGCTC"; "99"; "chr1"; "100"; "30"; "50M"; "="; "300"; "250";
            "ACGT"; "IIII"].
Definition mate2 : string :=
  sam_line ["p1:AAGCTC"; "147"; "chr1"; "300"; "30"; "50M"; "="; "100"; "-250";
            "ACGT"; "IIII"].

Definition k1_q40_later : string :=
  sam_line ["r12:AAGCTC"; "0"; "chr1"; "500"; "40"; "50M"; "*"; "0"; "0";
            "ACGT"; "IIII"].

(** The end-to-end scenario: two records at K1 with qualities 30 and 40,
    one record at a second key, one unmapped record. *)
Definition scenario : list string :=
  [header; k1_q30; k1_q40; k2_unique; unmapped].
Definition scenario_star : list string :=
  [header; k1_q30; k1_q40; k2_unique; unmapped_star].
Definition scenario_mapped : list string :=
  [header; k1_q30; k1_q40; k2_unique].

(** A stream with three records at K1, two of them of quality 40. *)
Definition ties : list string :=
  [header; k1_q30; k1_q40; k2_unique; k1_q40_later].

(** The state a completed pass leaves, for concrete streams. *)
Definition state_after (a : Args) (umis : list string) (sam : list string)
  : state :=
  match inter_sam a umis initial_state sam with
  | Ok st => st
  | Raise _ => initial_state
  end.

(** The object [__init__] builds, for concrete lines. *)
Definition info_of (a : Args) (umis : list string) (line : string)
  : sam_info :=
  match sam_info_init a umis line with
  | Ok r => r
  | Raise _ =>
      {| self_line := EmptyString; self_contig := EmptyString;
         self_start_pos := 0; self_qual_score := EmptyString;
         self_strand := (EmptyString, None); self_BC := EmptyString |}
  end.

Definition known_tag_info : sam_info :=
  Eval vm_compute in info_of umi_mode known_tags known_tag.
Definition k1_q30_info : sam_info :=
  Eval vm_compute in info_of quality_mode [] k1_q30.
Definition k1_q9_info : sam_info :=
  Eval vm_compute in info_of quality_mode [] k1_q9.

Definition before_short_cigar : state :=
  Eval vm_compute in state_after quality_mode [] [header; k1_q30].

Definition ties_quality : state :=
  Eval vm_compute in state_after quality_mode [] ties.
Definition ties_first_seen : state :=
  Eval vm_compute in state_after first_seen_mode [] ties.

End Sample.

(** ** The list of known tags *)

(** [s.strip()]: white space in the sense of [str.isspace] is dropped at
    both ends. *)
Fixpoint str_lstrip (s : string) : string :=
  match s with
  | String c r => if Py.is_space c then str_lstrip r else s
  | EmptyString => EmptyString
  end.

Fixpoint str_rstrip (s : string) : string :=
  match s with
  | EmptyString => EmptyString
  | String c r =>
      match str_rstrip r with
      | EmptyString =>
          if Py.is_space c then EmptyString else String c EmptyString
      | r' => String c r'
      end
  end.

Definition str_strip (s : string) : string := str_rstrip (str_lstrip s).

(** The loop of the main block over the lines of [STL96.txt]: every line
    is stripped and appended to [umi_list]. *)
Definition load_umi_list (lines : list string) : list string :=
  fold_left (fun umi_list line => umi_list ++ [str_strip line])%list lines [].

(** ** The text of a file and its lines *)

Definition CR : ascii := Py.chr 13.

(** The lines that iterating over a file opened in text mode yields for
    the text [s]: each ends with its newline, the last one perhaps without
    one; a carriage return, alone or followed by a newline, is read as a
    newline. *)
Fixpoint read_lines (s : string) : list string :=
  match s with
  | EmptyString => []
  | String c r =>
      if Ascii.eqb c Py.NL then String Py.NL EmptyString :: read_lines r
      else if Ascii.eqb c CR then
        match r with
        | String d r' =>
            if Ascii.eqb d Py.NL
            then String Py.NL EmptyString :: read_lines r'
            else String Py.NL EmptyString :: read_lines r
        | EmptyString => [String Py.NL EmptyString]
        end
      else
        match read_lines r with
        | h :: t => String c h :: t
        | [] => [String c EmptyString]
        end
  end.

(** The text of a file to which the given texts were written one after
    the other, where the line separator is the newline character. *)
Definition file_text (written : list string) : string :=
  String.concat EmptyString written.

(** A text that is one whole line: it ends with a newline and holds no
    other newline and no carriage return. *)
Fixpoint is_line (l : string) : bool :=
  match l with
  | EmptyString => false
  | String c EmptyString => Ascii.eqb c Py.NL
  | String c r => negb (Ascii.eqb c Py.NL) && negb (Ascii.eqb c CR) && is_line r
  end.

(** ** Further notions used to state properties *)

Definition is_header (line : string) : bool := Py.startswith "@"%char line.

(** The header lines and the other lines of a stream, in stream order. *)
Definition headers (sam : list string) : list string := filter is_header sam.
Definition records (sam : list string) : list string :=
  filter (fun line => negb (is_header line)) sam.

(** The characters of a string. *)
Definition chars (s : string) : list ascii := list_ascii_of_string s.

Section Arrivals.

Variable args : Args.
Variable umi_list : list string.

(** A line that the body of the loop gets through. *)
Definition parses (line : string) : bool :=
  is_header line || is_ok (sam_info_init args umi_list line).

(** The keys of the records that reach the dictionary, in stream order. *)
Fixpoint arrivals (sam : list string) : list key :=
  match sam with
  | [] => []
  | line :: rest =>
      if is_header line then arrivals rest
      else
        match sam_info_init args umi_list line with
        | Ok r =>
            if usable r then key_of r :: arrivals rest else arrivals rest
        | Raise _ => arrivals rest
        end
  end.

(** What is well formed about an entry [(k, (line, q))] of the
    dictionary: [line] is a record on which [__init__] returns, with key
    [k], quality [q] and a barcode. *)
Definition entry_ok (e : key * entry) : Prop :=
  is_header (fst (snd e)) = false /\
  exists r,
    sam_info_init args umi_list (fst (snd e)) = Ok r /\
    key_of r = fst e /\ self_qual_score r = snd (snd e) /\
    self_BC r <> EmptyString.

End Arrivals.

(** [subseq l1 l2]: [l1] is [l2] with some elements left out, the others
    in their order. *)
Inductive subseq {A : Type} : list A -> list A -> Prop :=
| subseq_nil : subseq [] []
| subseq_skip (x : A) (l1 l2 : list A) : subseq l1 l2 -> subseq l1 (x :: l2)
| subseq_take (x : A) (l1 l2 : list A) :
    subseq l1 l2 -> subseq (x :: l1) (x :: l2).

(** The distinct keys of a list, each at the place of its first
    occurrence, after the keys [acc] already there. *)
Definition seen (k : key) (ks : list key) : bool := existsb (key_eqb k) ks.

Definition first_occurrences (acc ks : list key) : list key :=
  fold_left (fun acc k => if seen k acc then acc else (acc ++ [k])%list) ks acc.

(** Further concrete inputs. *)
Module Cases.

Definition empty_tag : string :=
  sam_line ["r20:"; "0"; "chr1"; "100"; "30"; "50M"; "*"; "0"; "0";
            "ACGT"; "IIII"].

(** Two records that [__init__] accepts but that have no eighth field. *)
Definition six_fields_a : string :=
  sam_line ["s1:AAGCTC"; "0"; "chr1"; "100"; "30"; "50M"].
Definition six_fields_b : string :=
  sam_line ["s2:GGCTAA"; "0"; "chr1"; "200"; "30"; "50M"].

Definition hd_line : string := "@HD" ++ String Py.NL EmptyString.
Definition sq_line : string := "@SQ" ++ String Py.NL EmptyString.

Definition stream : list string :=
  [hd_line; Sample.k1_q30; sq_line; Sample.k1_q40; Sample.k2_unique;
   Sample.k1_q40_later; empty_tag].

Definition after_stream_quality : state :=
  Eval vm_compute in Sample.state_after Sample.quality_mode [] stream.
Definition after_stream_first : state :=
  Eval vm_compute in Sample.state_after Sample.first_seen_mode [] stream.

Definition run_of (a : Args) (umis : list string) (sam : list string) : state :=
  fst (main a umis sam).

Definition run_stream_quality : state :=
  Eval vm_compute in run_of Sample.quality_mode [] stream.

Definition paired_stream : list string :=
  [hd_line; Sample.mate1; Sample.k2_unique; Sample.mate2].
Definition after_paired_stream : state :=
  Eval vm_compute in Sample.state_after Sample.paired_mode [] paired_stream.
Definition run_paired_stream : state :=
  Eval vm_compute in run_of Sample.paired_mode [] paired_stream.

Definition after_six_fields : state :=
  Eval vm_compute in
    Sample.state_after Sample.paired_mode [] [six_fields_a; six_fields_b].

Definition after_k1_q30 : state :=
  Eval vm_compute in Sample.state_after Sample.quality_mode [] [Sample.k1_q30].

Definition more_lines : list string :=
  [sq_line; Sample.k1_q40; Sample.k2_unique].
Definition after_more_lines : state :=
  Eval vm_compute in
    match inter_sam Sample.quality_mode [] after_k1_q30 more_lines with
    | Ok st => st
    | Raise _ => initial_state
    end.

Definition after_umi_stream : state :=
  Eval vm_compute in
    Sample.state_after Sample.umi_mode Sample.known_tags
      [Sample.known_tag; Sample.unknown_tag].

Definition stream_reordered : list string :=
  [Sample.k1_q40_later; hd_line; Sample.k2_unique; Sample.k1_q40; sq_line;
   empty_tag; Sample.k1_q30].

Definition run_stream_first : state :=
  Eval vm_compute in run_of Sample.first_seen_mode [] stream.

Definition k1_q255 : string :=
  sam_line ["r21:AAGCTC"; "0"; "chr1"; "500"; "255"; "50M"; "*"; "0"; "0";
            "ACGT"; "IIII"].
Definition k1_q3 : string :=
  sam_line ["r22:AAGCTC"; "0"; "chr1"; "500"; "3"; "50M"; "*"; "0"; "0";
            "ACGT"; "IIII"].

Definition umi_file : list string :=
  ["AACCCG" ++ String Py.NL EmptyString;
   " AAGCTC" ++ String Py.TAB (String Py.NL EmptyString);
   String Py.NL EmptyString].

End Cases.

(** * Properties *)

Local Open Scope list_scope.

(** ** The result monad *)

Lemma bind_ok {A B : Type} (m : result A) (f : A -> result B) (b : B) :
  bind m f = Ok b -> exists a, m = Ok a /\ f a = Ok b.
Proof.
  destruct m as [a | e]; simpl; intros H; [exists a; auto | discriminate].
Qed.

Lemma bind_raise {A B : Type} (m : result A) (f : A -> result B) (e : exn) :
  m = Raise e -> bind m f = Raise e.
Proof. intros ->; reflexivity. Qed.

Ltac invert_bind H :=
  let x := fresh "x" in
  let Hx := fresh "Hx" in
  apply bind_ok in H; destruct H as [x [Hx H]].

(** ** Keys and the dictionary *)

Lemma key_eqb_eq (a b : key) : key_eqb a b = true <-> a = b.
Proof.
  destruct a as [[[bc1 p1] s1] c1], b as [[[bc2 p2] s2] c2]; simpl.
  rewrite !andb_true_iff, !String.eqb_eq, Z.eqb_eq.
  split; [intros [[[-> ->] ->] ->]; reflexivity | intros E; inversion E; auto].
Qed.

Lemma key_eqb_refl (a : key) : key_eqb a a = true.
Proof. apply key_eqb_eq; reflexivity. Qed.

Lemma key_eqb_neq (a b : key) : key_eqb a b = false <-> a <> b.
Proof.
  rewrite <- key_eqb_eq; destruct (key_eqb a b); split; congruence.
Qed.

Lemma dict_get_set (k k' : key) (v : entry) (d : dict) :
  dict_get k (dict_set k' v d) = if key_eqb k k' then Some v else dict_get k d.
Proof.
  induction d as [| [k0 v0] t IH]; simpl.
  - reflexivity.
  - destruct (key_eqb k' k0) eqn:E0; simpl.
    + apply key_eqb_eq in E0; subst k0.
      destruct (key_eqb k k'); reflexivity.
    + destruct (key_eqb k k0) eqn:E1.
      * apply key_eqb_eq in E1; subst k0.
        destruct (key_eqb k k') eqn:E2; [| reflexivity].
        apply key_eqb_eq in E2; subst k'.
        rewrite key_eqb_refl in E0; discriminate.
      * exact IH.
Qed.

Lemma dict_get_in (k : key) (d : dict) :
  dict_get k d = None <-> ~ In k (dict_keys d).
Proof.
  induction d as [| [k0 v0] t IH]; simpl.
  - split; auto.
  - destruct (key_eqb k k0) eqn:E.
    + apply key_eqb_eq in E; subst; split; [discriminate | intros H; exfalso; auto].
    + apply key_eqb_neq in E; rewrite IH; split; intros H.
      * intros [H1 | H1]; [congruence | auto].
      * auto.
Qed.

Lemma dict_keys_set_present (k : key) (v v' : entry) (d : dict) :
  dict_get k d = Some v' -> dict_keys (dict_set k v d) = dict_keys d.
Proof.
  induction d as [| [k0 v0] t IH]; simpl; [discriminate |].
  destruct (key_eqb k k0) eqn:E; simpl; intros H.
  - reflexivity.
  - rewrite (IH H); reflexivity.
Qed.

Lemma dict_keys_set_absent (k : key) (v : entry) (d : dict) :
  dict_get k d = None -> dict_keys (dict_set k v d) = dict_keys d ++ [k].
Proof.
  induction d as [| [k0 v0] t IH]; simpl; [reflexivity |].
  destruct (key_eqb k k0) eqn:E; simpl; intros H; [discriminate |].
  rewrite (IH H); reflexivity.
Qed.

Lemma NoDup_snoc {A : Type} (l : list A) (a : A) :
  NoDup l -> ~ In a l -> NoDup (l ++ [a]).
Proof.
  induction 1 as [| x l Hx Hl IH]; simpl; intros Ha.
  - constructor; [intros [] | constructor].
  - constructor.
    + rewrite in_app_iff; simpl; intros [H | [H | []]]; [auto | subst; auto].
    + apply IH; auto.
Qed.

Lemma dict_set_NoDup (k : key) (v : entry) (d : dict) :
  NoDup (dict_keys d) -> NoDup (dict_keys (dict_set k v d)).
Proof.
  intros H; destruct (dict_get k d) as [v' |] eqn:E.
  - rewrite (dict_keys_set_present _ _ _ _ E); exact H.
  - rewrite (dict_keys_set_absent _ _ _ E).
    apply NoDup_snoc; [exact H | apply dict_get_in; exact E].
Qed.

Lemma retained_NoDup (k : key) (v : entry) (d : dict) :
  NoDup (dict_keys d) -> dict_get k d = Some v ->
  filter (fun e => key_eqb k (fst e)) d = [(k, v)].
Proof.
  induction d as [| [k0 v0] t IH]; simpl; [discriminate |].
  intros ND; inversion ND as [| ? ? Hnin ND']; subst.
  destruct (key_eqb k k0) eqn:E; intros H.
  - apply key_eqb_eq in E; subst k0; inversion H; subst v0; f_equal.
    apply dict_get_in in Hnin.
    clear - Hnin; induction t as [| [k1 v1] t IH]; simpl in *; [reflexivity |].
    destruct (key_eqb k k1); [discriminate | auto].
  - apply IH; auto.
Qed.

Lemma retained_absent (k : key) (d : dict) :
  dict_get k d = None -> filter (fun e => key_eqb k (fst e)) d = [].
Proof.
  induction d as [| [k0 v0] t IH]; simpl; [reflexivity |].
  destruct (key_eqb k k0); [discriminate | auto].
Qed.

(** ** The order on strings *)

Lemma ascii_compare_lt_trans (a b c : ascii) :
  Ascii.compare a b = Lt -> Ascii.compare b c = Lt -> Ascii.compare a c = Lt.
Proof.
  unfold Ascii.compare; rewrite !N.compare_lt_iff; apply N.lt_trans.
Qed.

Lemma compare_lt_trans (a b c : string) :
  String.compare a b = Lt -> String.compare b c = Lt -> String.compare a c = Lt.
Proof.
  revert b c; induction a as [| x a IH]; intros [| y b] [| z c]; simpl;
    try discriminate; auto.
  destruct (Ascii.compare x y) eqn:Exy; try discriminate.
  - apply Ascii.compare_eq_iff in Exy; subst y.
    destruct (Ascii.compare x z); try discriminate; auto.
    apply IH.
  - intros _.
    destruct (Ascii.compare y z) eqn:Eyz; try discriminate.
    + apply Ascii.compare_eq_iff in Eyz; subst z; rewrite Exy; auto.
    + rewrite (ascii_compare_lt_trans _ _ _ Exy Eyz); auto.
Qed.

Lemma str_lt_trans (a b c : string) :
  Py.str_lt a b = true -> Py.str_lt b c = true -> Py.str_lt a c = true.
Proof.
  unfold Py.str_lt, String.ltb.
  destruct (String.compare a b) eqn:E1; try discriminate.
  destruct (String.compare b c) eqn:E2; try discriminate.
  rewrite (compare_lt_trans _ _ _ E1 E2); auto.
Qed.

Lemma str_lt_irrefl (a : string) : Py.str_lt a a = false.
Proof.
  unfold Py.str_lt, String.ltb.
  assert (H := String.compare_antisym a a).
  destruct (String.compare a a); simpl in H; try discriminate; reflexivity.
Qed.

(** [a <= b] and [b < c] give [a < c]. *)
Lemma str_le_lt_trans (a b c : string) :
  Py.str_lt b a = false -> Py.str_lt b c = true -> Py.str_lt a c = true.
Proof.
  unfold Py.str_lt, String.ltb; intros Hba Hbc.
  rewrite String.compare_antisym in Hba.
  destruct (String.compare a b) eqn:E1; simpl in Hba; try discriminate.
  - apply String.compare_eq_iff in E1; subst; exact Hbc.
  - destruct (String.compare b c) eqn:E2; try discriminate.
    rewrite (compare_lt_trans _ _ _ E1 E2); auto.
Qed.

(** [c <= b] and [b <= a] give [c <= a]. *)
Lemma str_ge_trans (a b c : string) :
  Py.str_lt a b = false -> Py.str_lt b c = false -> Py.str_lt a c = false.
Proof.
  intros Hab Hbc.
  destruct (Py.str_lt a c) eqn:E; [| reflexivity].
  rewrite (str_le_lt_trans _ _ _ Hab E) in Hbc; discriminate.
Qed.

(** ** The streaming pass *)

Section Pass.

Variable args : Args.
Variable umi_list : list string.

Lemma colliding_cons (k : key) (line : string) (rest : list string) :
  colliding args umi_list k (line :: rest) = colliding args umi_list k [line] ++ colliding args umi_list k rest.
Proof.
  simpl.
  destruct (Py.startswith "@" line); [reflexivity |].
  destruct (sam_info_init args umi_list line) as [r | e]; [| reflexivity].
  destruct (usable r && key_eqb k (key_of r)); reflexivity.
Qed.

(** One line changes the entry of a key as [keep] says. *)
Lemma step_lookup (st st' : state) (line : string) (k : key) :
  inter_sam_line args umi_list st line = Ok st' ->
  dict_get k (place st') =
  fold_left (keep args) (colliding args umi_list k [line]) (dict_get k (place st)).
Proof.
  unfold inter_sam_line; simpl.
  destruct (Py.startswith "@" line).
  { intros H; inversion H; reflexivity. }
  destruct (sam_info_init args umi_list line) as [r | e]; simpl;
    [| discriminate].
  unfold usable.
  destruct (snd (self_strand r)) as [u |].
  2:{ intros H; inversion H; reflexivity. }
  destruct (String.eqb (self_BC r) EmptyString); simpl.
  { intros H; inversion H; reflexivity. }
  destruct (key_eqb k (key_of r)) eqn:Ek; simpl.
  - apply key_eqb_eq in Ek; subst k.
    destruct (dict_get (key_of r) (place st)) as [cur |] eqn:Eg; simpl.
    + destruct (qual args); simpl.
      * destruct (Py.str_lt (snd cur) (self_qual_score r)); intros H;
          inversion H; simpl; [| auto].
        rewrite dict_get_set, key_eqb_refl; reflexivity.
      * intros H; inversion H; subst; auto.
    + intros H; inversion H; simpl.
      rewrite dict_get_set, key_eqb_refl; reflexivity.
  - destruct (dict_get (key_of r) (place st)) as [cur |] eqn:Eg; simpl.
    + destruct (qual args); simpl.
      * destruct (Py.str_lt (snd cur) (self_qual_score r)); intros H;
          inversion H; simpl; [| auto].
        rewrite dict_get_set, Ek; reflexivity.
      * intros H; inversion H; subst; auto.
    + intros H; inversion H; simpl.
      rewrite dict_get_set, Ek; reflexivity.
Qed.

Lemma step_NoDup (st st' : state) (line : string) :
  inter_sam_line args umi_list st line = Ok st' ->
  NoDup (dict_keys (place st)) -> NoDup (dict_keys (place st')).
Proof.
  unfold inter_sam_line; simpl.
  destruct (Py.startswith "@" line).
  { intros H; inversion H; auto. }
  destruct (sam_info_init args umi_list line) as [r | e]; simpl;
    [| discriminate].
  destruct (snd (self_strand r)) as [u |].
  2:{ intros H; inversion H; auto. }
  destruct (String.eqb (self_BC r) EmptyString).
  { intros H; inversion H; auto. }
  destruct (dict_get (key_of r) (place st)) as [cur |].
  - destruct (qual args);
      [destruct (Py.str_lt (snd cur) (self_qual_score r)) |];
      intros H; inversion H; simpl; auto using dict_set_NoDup.
  - intros H; inversion H; simpl; auto using dict_set_NoDup.
Qed.

Lemma pass_lookup (sam : list string) (st st' : state) (k : key) :
  inter_sam args umi_list st sam = Ok st' ->
  dict_get k (place st') =
  fold_left (keep args) (colliding args umi_list k sam) (dict_get k (place st)).
Proof.
  revert st; induction sam as [| line rest IH]; intros st H.
  - inversion H; reflexivity.
  - simpl in H; invert_bind H.
    rewrite colliding_cons, fold_left_app.
    rewrite <- (step_lookup _ _ _ k Hx).
    apply IH; exact H.
Qed.

Lemma pass_NoDup (sam : list string) (st st' : state) :
  inter_sam args umi_list st sam = Ok st' ->
  NoDup (dict_keys (place st)) -> NoDup (dict_keys (place st')).
Proof.
  revert st; induction sam as [| line rest IH]; intros st H ND.
  - inversion H; subst; exact ND.
  - simpl in H; invert_bind H.
    eapply IH; [exact H | eapply step_NoDup; eauto].
Qed.

Lemma pass_app (pre post : list string) (st : state) :
  inter_sam args umi_list st (pre ++ post) = (st' <- inter_sam args umi_list st pre ;; inter_sam args umi_list st' post).
Proof.
  revert st; induction pre as [| line pre IH]; intros st; simpl.
  - reflexivity.
  - destruct (inter_sam_line args umi_list st line) as [st1 | e]; simpl; [apply IH | reflexivity].
Qed.

(** A line on which the body of the loop raises ends every pass that
    reaches it or stops before it. *)
Lemma pass_raises_at (pre post : list string) (line : string) (st : state) :
  (forall s, exists e, inter_sam_line args umi_list s line = Raise e) ->
  exists e, inter_sam args umi_list st (pre ++ line :: post) = Raise e.
Proof.
  intros Hline; rewrite pass_app.
  destruct (inter_sam args umi_list st pre) as [st1 | e]; simpl; [| eauto].
  destruct (Hline st1) as [e ->]; simpl; eauto.
Qed.

(** *** The reduction [keep] *)

Lemma keep_some (l : list entry) (c : entry) :
  exists r, fold_left (keep args) l (Some c) = Some r.
Proof.
  revert c; induction l as [| x l IH]; intros c; simpl; [eauto |].
  destruct (qual args && Py.str_lt (snd c) (snd x)); apply IH.
Qed.

Lemma keep_first (l : list entry) (c : entry) :
  qual args = false -> fold_left (keep args) l (Some c) = Some c.
Proof.
  intros Hq; revert c; induction l as [| x l IH]; intros c; simpl;
    [reflexivity |].
  rewrite Hq; simpl; apply IH.
Qed.

(** With the quality option, the survivor of [c :: l] is its first
    element of greatest quality. *)
Lemma keep_best (l : list entry) (c r : entry) :
  qual args = true ->
  fold_left (keep args) l (Some c) = Some r ->
  exists before after,
    c :: l = before ++ r :: after /\
    Forall (fun x => Py.str_lt (snd x) (snd r) = true) before /\
    Forall (fun x => str_ge (snd r) (snd x) = true) after.
Proof.
  intros Hq; revert c; induction l as [| x l IH]; intros c; simpl.
  - intros H; inversion H; subst.
    exists [], []; repeat split; constructor.
  - rewrite Hq; simpl.
    destruct (Py.str_lt (snd c) (snd x)) eqn:Ecx; intros H;
      destruct (IH _ H) as (before & after & Hsplit & Hb & Ha).
    + exists (c :: before), after; simpl; repeat split.
      * rewrite Hsplit; reflexivity.
      * constructor; [| exact Hb].
        destruct before as [| b0 before]; simpl in Hsplit;
          inversion Hsplit; subst; [exact Ecx |].
        inversion Hb; subst; eapply str_lt_trans; eauto.
      * exact Ha.
    + destruct before as [| b0 before]; simpl in Hsplit;
        inversion Hsplit; subst.
      * exists []; eexists; split; [reflexivity |]; split; [constructor |].
        constructor; [unfold str_ge; rewrite Ecx; reflexivity | exact Ha].
      * inversion Hb as [| ? ? Hcr Hb']; subst.
        exists (b0 :: x :: before), after; simpl; repeat split.
        -- constructor; [exact Hcr |].
           constructor; [| exact Hb'].
           eapply str_le_lt_trans; eauto.
        -- exact Ha.
Qed.

End Pass.

(** ** Collisions on a key *)

(** With the quality option on, in the order on strings that the pass
    applies to the stored MAPQ fields: after a completed pass the records
    that collided on a key [k] have left exactly one entry [r] under [k];
    [r] is one of them, every colliding record seen before it is strictly
    below it and every one seen after it is not above it. This order is
    not the order of the numbers that the fields stand for. *)
Lemma quality_monotonicity (args : Args) (umi_list : list string)
    (sam : list string) (st : state) (k : key) :
  qual args = true ->
  inter_sam args umi_list initial_state sam = Ok st ->
  colliding args umi_list k sam <> [] ->
  exists r before after,
    retained k st = [(k, r)] /\
    colliding args umi_list k sam = before ++ r :: after /\
    Forall (fun x => Py.str_lt (snd x) (snd r) = true) before /\
    Forall (fun x => str_ge (snd r) (snd x) = true) after.
Proof.
  intros Hq Hpass Hne.
  assert (Hget := pass_lookup args umi_list sam _ _ k Hpass).
  assert (ND : NoDup (dict_keys (place st))).
  { eapply pass_NoDup; [exact Hpass | constructor]. }
  destruct (colliding args umi_list k sam) as [| c l] eqn:Ec; [congruence |].
  simpl in Hget.
  destruct (keep_some args l c) as [r Hr].
  rewrite Hr in Hget.
  destruct (keep_best args l c r Hq Hr) as (before & after & Hs & Hb & Ha).
  exists r, before, after; repeat split; auto.
  apply retained_NoDup; assumption.
Qed.

Lemma quality_monotonicity_witness :
  exists r before after,
    retained Sample.K1 Sample.ties_quality = [(Sample.K1, r)] /\
    colliding Sample.quality_mode [] Sample.K1 Sample.ties =
      before ++ r :: after /\
    Forall (fun x => Py.str_lt (snd x) (snd r) = true) before /\
    Forall (fun x => str_ge (snd r) (snd x) = true) after.
Proof.
  apply (quality_monotonicity Sample.quality_mode [] Sample.ties
           Sample.ties_quality Sample.K1).
  - reflexivity.
  - vm_compute; reflexivity.
  - vm_compute; discriminate.
Defined.

(** The entry kept in the sample stream is the first of the two records of
    quality 40. *)
Example ties_keep_earliest :
  retained Sample.K1 Sample.ties_quality =
  [(Sample.K1, (Sample.k1_q40, "40"%string))].
Proof. vm_compute; reflexivity. Qed.

(** C1. The record kept under the quality option is not the one of
    highest mapping quality. Two records collide on K1 with MAPQ 30 and
    then MAPQ 9: the pass compares the fields as strings, replaces the
    first record by the second, and the run writes the record of MAPQ 9,
    whose quality is below that of the record it dropped. The same
    happens with MAPQ 255 followed by MAPQ 3. *)
Theorem highest_quality_not_kept :
  (exists st,
      main Sample.quality_mode [] [Sample.k1_q30; Sample.k1_q9] =
        (st, Finished) /\
      colliding Sample.quality_mode [] Sample.K1 [Sample.k1_q30; Sample.k1_q9] =
        [(Sample.k1_q30, "30"%string); (Sample.k1_q9, "9"%string)] /\
      retained Sample.K1 st = [(Sample.K1, (Sample.k1_q9, "9"%string))] /\
      dedup st = [Sample.k1_q9] /\
      Py.int_of_str "9" = Ok 9 /\ Py.int_of_str "30" = Ok 30 /\ 9 < 30) /\
  (exists st,
      main Sample.quality_mode [] [Cases.k1_q255; Cases.k1_q3] =
        (st, Finished) /\
      colliding Sample.quality_mode [] Sample.K1 [Cases.k1_q255; Cases.k1_q3] =
        [(Cases.k1_q255, "255"%string); (Cases.k1_q3, "3"%string)] /\
      retained Sample.K1 st = [(Sample.K1, (Cases.k1_q3, "3"%string))] /\
      dedup st = [Cases.k1_q3] /\
      Py.int_of_str "3" = Ok 3 /\ Py.int_of_str "255" = Ok 255 /\ 3 < 255).
Proof.
  split; eexists; (split; [vm_compute; reflexivity |]);
    repeat split; vm_compute; reflexivity.
Qed.

(** C2. After a completed pass, the records that collided on a key [k]
    have left exactly one entry under [k], taken from one of them, and
    nothing is stored under a key on which no record arrived; without the
    quality option the entry is the first colliding record of the
    stream. *)
Theorem keying_collapses (args : Args) (umi_list : list string)
    (sam : list string) (st : state) (k : key) :
  inter_sam args umi_list initial_state sam = Ok st ->
  (colliding args umi_list k sam = [] -> retained k st = []) /\
  (forall first later,
      colliding args umi_list k sam = first :: later ->
      exists r, retained k st = [(k, r)] /\ In r (first :: later) /\
                (qual args = false -> r = first)).
Proof.
  intros Hpass.
  assert (Hget := pass_lookup args umi_list sam _ _ k Hpass).
  assert (ND : NoDup (dict_keys (place st))).
  { eapply pass_NoDup; [exact Hpass | constructor]. }
  split.
  - intros E; rewrite E in Hget; simpl in Hget.
    apply retained_absent; exact Hget.
  - intros first later E; rewrite E in Hget; simpl in Hget.
    destruct (keep_some args later first) as [r Hr].
    rewrite Hr in Hget.
    exists r; split; [apply retained_NoDup; assumption |].
    split.
    + destruct (qual args) eqn:Hq.
      * destruct (keep_best args later first r Hq Hr)
          as (before & after & Hs & _ & _).
        rewrite Hs; apply in_or_app; right; left; reflexivity.
      * rewrite (keep_first args later first Hq) in Hr.
        inversion Hr; left; reflexivity.
    + intros Hq; rewrite (keep_first args later first Hq) in Hr.
      inversion Hr; reflexivity.
Qed.

Lemma keying_collapses_witness :
  exists r,
    retained Sample.K1 Sample.ties_first_seen = [(Sample.K1, r)] /\
    In r [(Sample.k1_q30, "30"%string); (Sample.k1_q40, "40"%string);
          (Sample.k1_q40_later, "40"%string)] /\
    (qual Sample.first_seen_mode = false -> r = (Sample.k1_q30, "30"%string)).
Proof.
  destruct (keying_collapses Sample.first_seen_mode [] Sample.ties
              Sample.ties_first_seen Sample.K1) as [_ H].
  - vm_compute; reflexivity.
  - apply (H (Sample.k1_q30, "30"%string)
             [(Sample.k1_q40, "40"%string);
              (Sample.k1_q40_later, "40"%string)]).
    vm_compute; reflexivity.
Defined.

(** Without the quality option the sample stream keeps the record of
    quality 30, which comes first. *)
Example ties_keep_first :
  retained Sample.K1 Sample.ties_first_seen =
  [(Sample.K1, (Sample.k1_q30, "30"%string))].
Proof. vm_compute; reflexivity. Qed.

(** ** Field extraction *)

Lemma item_ok_lt {A : Type} (l : list A) (i j : nat) (a : A) :
  Py.item l i = Ok a -> (j <= i)%nat -> exists b, Py.item l j = Ok b.
Proof.
  unfold Py.item; intros H Hj.
  destruct (nth_error l i) eqn:E; [| discriminate].
  assert (Hi : (i < List.length l)%nat) by (apply nth_error_Some; congruence).
  destruct (nth_error l j) eqn:Ej; [eauto |].
  apply nth_error_None in Ej; lia.
Qed.

Lemma item_short {A : Type} (l : list A) (i : nat) :
  (List.length l <= i)%nat -> Py.item l i = Raise IndexError.
Proof.
  unfold Py.item; intros H.
  apply nth_error_None in H; rewrite H; reflexivity.
Qed.

(** What a successful [__init__] has computed. *)
Lemma sam_info_init_ok (args : Args) (umi_list : list string) (line : string)
    (r : sam_info) :
  sam_info_init args umi_list line = Ok r ->
  self_line r = line /\
  Py.item (fields line) 2 = Ok (self_contig r) /\
  start_pos line = Ok (self_start_pos r) /\
  Py.item (fields line) 4 = Ok (self_qual_score r) /\
  bit_check line = Ok (self_strand r) /\
  barcode_get args umi_list line = Ok (self_BC r).
Proof.
  unfold sam_info_init; intros H.
  invert_bind H. rename x into contig, Hx into Hc.
  invert_bind H. rename x into sp, Hx into Hs.
  invert_bind H. rename x into qs, Hx into Hq.
  invert_bind H. rename x into sd, Hx into Hb.
  invert_bind H. rename x into bc, Hx into Hbc.
  inversion H; subst; simpl; auto 6.
Qed.

(** [bit_check] returns only for mapped, primary alignments. *)
Lemma bit_check_ok (line : string) (s : string * option string) :
  bit_check line = Ok s -> snd s = Some EmptyString.
Proof.
  unfold bit_check; intros H.
  invert_bind H. invert_bind H. invert_bind H.
  inversion H; subst; simpl.
  destruct (negb (Z.land x0 4 =? 4) && negb (Z.land x0 256 =? 256));
    [inversion Hx1; reflexivity | discriminate].
Qed.

(** A flag with the unmapped bit or the secondary bit makes [bit_check]
    raise. *)
Lemma bit_check_unmapped (line f1 : string) (flag : Z) :
  Py.item (fields line) 1 = Ok f1 ->
  Py.int_of_str f1 = Ok flag ->
  Z.land flag 4 = 4 \/ Z.land flag 256 = 256 ->
  bit_check line = Raise NameError.
Proof.
  unfold bit_check; intros -> ; simpl; intros ->; simpl; intros Hbits.
  destruct (negb (Z.land flag 4 =? 4) && negb (Z.land flag 256 =? 256)) eqn:E;
    [| reflexivity].
  apply andb_true_iff in E; destruct E as [E1 E2].
  apply negb_true_iff in E1, E2.
  apply Z.eqb_neq in E1, E2; destruct Hbits; contradiction.
Qed.

Lemma sam_info_init_usable (args : Args) (umi_list : list string)
    (line : string) (r : sam_info) :
  sam_info_init args umi_list line = Ok r ->
  snd (self_strand r) = Some EmptyString.
Proof.
  intros H; apply sam_info_init_ok in H.
  destruct H as (_ & _ & _ & _ & Hb & _).
  exact (bit_check_ok _ _ Hb).
Qed.

(** The branch of the pass that counts unmapped records is never taken. *)
Lemma step_UnMap (args : Args) (umi_list : list string) (st st' : state)
    (line : string) :
  inter_sam_line args umi_list st line = Ok st' -> UnMap st' = UnMap st.
Proof.
  unfold inter_sam_line.
  destruct (Py.startswith "@" line); [intros H; inversion H; reflexivity |].
  destruct (sam_info_init args umi_list line) as [r | e] eqn:E; simpl;
    [| discriminate].
  rewrite (sam_info_init_usable _ _ _ _ E).
  destruct (String.eqb (self_BC r) EmptyString);
    [intros H; inversion H; reflexivity |].
  destruct (dict_get (key_of r) (place st)) as [cur |].
  - destruct (qual args);
      [destruct (Py.str_lt (snd cur) (self_qual_score r)) |];
      intros H; inversion H; reflexivity.
  - intros H; inversion H; reflexivity.
Qed.

Lemma pass_UnMap (args : Args) (umi_list : list string) (sam : list string)
    (st st' : state) :
  inter_sam args umi_list st sam = Ok st' -> UnMap st' = UnMap st.
Proof.
  revert st; induction sam as [| line rest IH]; intros st H.
  - inversion H; reflexivity.
  - simpl in H; invert_bind H.
    rewrite (IH _ H); eapply step_UnMap; eauto.
Qed.

(** ** Soft clips *)

(** A CIGAR string of one character, or of two with no [S] in second
    place, sends [soft_check] past the end of the string. *)
Lemma soft_check_short (align : string) :
  String.length align = 1%nat \/
  (String.length align = 2%nat /\ String.get 1 align <> Some "S"%char) ->
  soft_check align = Raise IndexError.
Proof.
  destruct align as [| c0 [| c1 [| c2 t]]]; simpl;
    intros [H | [H Hs]]; try discriminate; try reflexivity.
  unfold soft_check, Py.char_at; simpl.
  destruct (Ascii.eqb c1 "S") eqn:E; [| reflexivity].
  apply Ascii.eqb_eq in E; subst; congruence.
Qed.

(** A one-digit clip: [dS...]. *)
Lemma soft_check_one_digit (c0 : ascii) (t : string) :
  Py.is_digit c0 = true ->
  soft_check (String c0 (String "S" t)) = Ok (Py.digit_val c0).
Proof.
  intros Hd; unfold soft_check, Py.char_at; simpl.
  destruct c0 as [[] [] [] [] [] [] [] []]; try discriminate Hd; reflexivity.
Qed.

(** A two-digit clip: [ddS...]. *)
Lemma soft_check_two_digits (c0 c1 : ascii) (t : string) :
  Py.is_digit c0 = true -> Py.is_digit c1 = true ->
  soft_check (String c0 (String c1 (String "S" t))) =
  Ok (10 * Py.digit_val c0 + Py.digit_val c1).
Proof.
  intros H0 H1; unfold soft_check, Py.char_at; cbn [String.get bind].
  replace (Ascii.eqb c1 "S") with false
    by (destruct c1 as [[] [] [] [] [] [] [] []]; try discriminate H1;
        reflexivity).
  cbn [Ascii.eqb Bool.eqb bind Py.slice_to substring Py.int].
  destruct c0 as [[] [] [] [] [] [] [] []]; try discriminate H0;
    destruct c1 as [[] [] [] [] [] [] [] []]; try discriminate H1;
    reflexivity.
Qed.

(** Clips of more than two digits are not seen: [100S50M] counts as no
    clip. *)
Example soft_check_three_digits : soft_check "100S50M" = Ok 0.
Proof. reflexivity. Qed.

(** The position is lowered by a clip amount that [soft_check] reports. *)
Lemma start_pos_clipped (line f3 align : string) (pos k : Z) :
  Py.item (fields line) 3 = Ok f3 ->
  Py.int_of_str f3 = Ok pos ->
  Py.item (fields line) 5 = Ok align ->
  soft_check align = Ok k ->
  0 <= k ->
  start_pos line = Ok (pos - k).
Proof.
  unfold start_pos; intros -> ; simpl; intros ->; simpl; intros ->; simpl.
  intros ->; simpl; intros Hk.
  destruct (0 <? k) eqn:E; [reflexivity |].
  apply Z.ltb_ge in E; f_equal; lia.
Qed.

(** A CIGAR string of three characters or more with no [S] in second or
    third place leaves the position as it is. *)
Lemma start_pos_unclipped (line f3 align : string) (pos : Z) (c1 c2 : ascii) :
  Py.item (fields line) 3 = Ok f3 ->
  Py.int_of_str f3 = Ok pos ->
  Py.item (fields line) 5 = Ok align ->
  String.get 1 align = Some c1 -> c1 <> "S"%char ->
  String.get 2 align = Some c2 -> c2 <> "S"%char ->
  start_pos line = Ok pos.
Proof.
  unfold start_pos; intros -> ; simpl; intros ->; simpl; intros ->; simpl.
  intros H1 N1 H2 N2.
  unfold soft_check, Py.char_at; rewrite H1; simpl.
  apply Ascii.eqb_neq in N1, N2; rewrite N1, H2; simpl; rewrite N2.
  reflexivity.
Qed.

(** C4. A record at position 100 whose CIGAR string starts with [5S] gets
    the start position 95, but a record at position 100 whose CIGAR string
    is [5M], which has no soft clip, gets no start position at all:
    [soft_check] reads the third character of a two-character string and
    raises [IndexError], in every configuration and state, and a run on
    that record ends with the exception after [NR] has been set to 1, with
    nothing stored and nothing written. *)
Theorem clip_adjustment_short_cigar :
  start_pos Sample.clipped_5 = Ok 95 /\
  soft_check "5M" = Raise IndexError /\
  start_pos Sample.short_cigar = Raise IndexError /\
  (forall (args : Args) (umi_list : list string) (st : state),
      inter_sam_line args umi_list st Sample.short_cigar = Raise IndexError) /\
  (forall (args : Args) (umi_list : list string),
      exists st,
        main args umi_list [Sample.short_cigar] = (st, Aborted IndexError) /\
        NR st = 1 /\ place st = [] /\ dedup st = []).
Proof.
  split; [vm_compute; reflexivity |].
  split; [vm_compute; reflexivity |].
  split; [vm_compute; reflexivity |].
  split; [intros args umi_list st; reflexivity |].
  intros args umi_list; eexists; split; [reflexivity |].
  repeat split.
Qed.

(** C10. On a line whose position field is an integer and whose CIGAR
    string has one character, or two with no [S] in second place,
    [soft_check] indexes past the end of the string: it raises
    [IndexError], so do [start_pos] and the body of the loop, and a pass
    that reaches the line ends with that exception, whatever the flag of
    the record and whatever follows it. *)
Theorem soft_check_not_total (args : Args) (umi_list : list string)
    (line f3 align : string) (pos : Z) (pre post : list string)
    (st0 st : state) :
  Py.startswith "@" line = false ->
  Py.item (fields line) 3 = Ok f3 ->
  Py.int_of_str f3 = Ok pos ->
  Py.item (fields line) 5 = Ok align ->
  (String.length align = 1%nat \/
   (String.length align = 2%nat /\ String.get 1 align <> Some "S"%char)) ->
  inter_sam args umi_list st0 pre = Ok st ->
  soft_check align = Raise IndexError /\
  start_pos line = Raise IndexError /\
  inter_sam_line args umi_list st line = Raise IndexError /\
  inter_sam args umi_list st0 (pre ++ line :: post) = Raise IndexError.
Proof.
  intros Hh H3 Hpos H5 Hshort Hpre.
  assert (Hsc := soft_check_short align Hshort).
  assert (Hsp : start_pos line = Raise IndexError).
  { unfold start_pos; rewrite H3; simpl; rewrite Hpos; simpl.
    rewrite H5; simpl; rewrite Hsc; reflexivity. }
  assert (Hstep : forall s, inter_sam_line args umi_list s line = Raise IndexError).
  { intros s; unfold inter_sam_line; rewrite Hh.
    unfold sam_info_init.
    destruct (item_ok_lt (fields line) 3 2 f3 H3) as [c ->]; [lia |].
    simpl; rewrite Hsp; reflexivity. }
  repeat split; auto.
  rewrite pass_app, Hpre; simpl; rewrite Hstep; reflexivity.
Qed.

Lemma soft_check_not_total_witness :
  soft_check "5M" = Raise IndexError /\
  start_pos Sample.short_cigar = Raise IndexError /\
  inter_sam_line Sample.quality_mode [] Sample.before_short_cigar
    Sample.short_cigar = Raise IndexError /\
  inter_sam Sample.quality_mode [] initial_state
    ([Sample.header; Sample.k1_q30] ++ Sample.short_cigar :: [Sample.k2_unique])
  = Raise IndexError.
Proof.
  apply (soft_check_not_total Sample.quality_mode [] Sample.short_cigar
           "100" "5M" 100 [Sample.header; Sample.k1_q30] [Sample.k2_unique]
           initial_state Sample.before_short_cigar).
  - reflexivity.
  - vm_compute; reflexivity.
  - vm_compute; reflexivity.
  - vm_compute; reflexivity.
  - right; split; [reflexivity | simpl; discriminate].
  - vm_compute; reflexivity.
Defined.

(** The CIGAR string [*] of an unmapped record has the same effect. *)
Example unmapped_star_aborts (args : Args) (umi_list : list string)
    (st : state) :
  inter_sam_line args umi_list st Sample.unmapped_star = Raise IndexError.
Proof. reflexivity. Qed.

(** ** Unmapped and secondary alignments *)

(** The flag of a record for which [bit_check] returns has neither the
    unmapped bit nor the secondary bit. *)
Lemma bit_check_ok_flag (line : string) (s : string * option string) :
  bit_check line = Ok s ->
  exists f1 flag,
    Py.item (fields line) 1 = Ok f1 /\ Py.int_of_str f1 = Ok flag /\
    Z.land flag 4 <> 4 /\ Z.land flag 256 <> 256.
Proof.
  unfold bit_check; intros H.
  invert_bind H. invert_bind H. invert_bind H.
  exists x, x0; repeat split; auto;
    destruct (Z.land x0 4 =? 4) eqn:E1; destruct (Z.land x0 256 =? 256) eqn:E2;
    simpl in Hx1; try discriminate; apply Z.eqb_neq; assumption.
Qed.

Lemma dict_set_in (k k' : key) (v e : entry) (d : dict) :
  In (k, e) (dict_set k' v d) -> e = v \/ In (k, e) d.
Proof.
  induction d as [| [k0 v0] t IH]; simpl.
  - intros [H | []]; inversion H; auto.
  - destruct (key_eqb k' k0); simpl; intros [H | H].
    + inversion H; auto.
    + auto.
    + auto.
    + destruct (IH H); auto.
Qed.

(** Every line kept in the dictionary is one on which [__init__]
    returned. *)
Lemma step_place_lines (args : Args) (umi_list : list string)
    (st st' : state) (line : string) :
  inter_sam_line args umi_list st line = Ok st' ->
  forall k e, In (k, e) (place st') ->
    In (k, e) (place st) \/
    (fst e = line /\ is_ok (sam_info_init args umi_list line) = true).
Proof.
  unfold inter_sam_line.
  destruct (Py.startswith "@" line); [intros H; inversion H; auto |].
  destruct (sam_info_init args umi_list line) as [r | e0] eqn:E; simpl;
    [| discriminate].
  assert (Hl : self_line r = line) by (apply sam_info_init_ok in E; tauto).
  destruct (snd (self_strand r)); [| intros H; inversion H; auto].
  destruct (String.eqb (self_BC r) EmptyString);
    [intros H; inversion H; auto |].
  assert (Hset : forall k e,
             In (k, e) (dict_set (key_of r) (self_line r, self_qual_score r)
                          (place st)) ->
             In (k, e) (place st) \/ (fst e = line /\ true = true)).
  { intros k e Hin; apply dict_set_in in Hin; destruct Hin as [-> | Hin]; auto. }
  destruct (dict_get (key_of r) (place st)) as [cur |].
  - destruct (qual args);
      [destruct (Py.str_lt (snd cur) (self_qual_score r)) |];
      intros H; inversion H; simpl; auto.
  - intros H; inversion H; simpl; auto.
Qed.

(** No record with the unmapped bit or the secondary bit is in the
    dictionary after a completed pass. *)
Lemma place_flags_clear (args : Args) (umi_list : list string)
    (sam : list string) (st st' : state) :
  inter_sam args umi_list st sam = Ok st' ->
  forall k e, In (k, e) (place st') ->
    In (k, e) (place st) \/
    (In (fst e) sam /\
     exists f1 flag,
       Py.item (fields (fst e)) 1 = Ok f1 /\ Py.int_of_str f1 = Ok flag /\
       Z.land flag 4 <> 4 /\ Z.land flag 256 <> 256).
Proof.
  revert st; induction sam as [| line rest IH]; intros st H k e Hin.
  - inversion H; subst; auto.
  - simpl in H; invert_bind H.
    destruct (IH _ H k e Hin) as [Hold | [Hi Hf]].
    + destruct (step_place_lines _ _ _ _ _ Hx k e Hold) as [? | [El Hok]];
        [auto |].
      right; split; [left; auto |].
      destruct (sam_info_init args umi_list line) as [r |] eqn:E;
        [| discriminate].
      apply sam_info_init_ok in E; destruct E as (_ & _ & _ & _ & Hb & _).
      rewrite El; eapply bit_check_ok_flag; eauto.
    + right; split; [right; auto | auto].
Qed.

(** A line with the unmapped bit or the secondary bit makes the body of
    the loop raise, in every state. *)
Lemma unusable_flag_raises (args : Args) (umi_list : list string)
    (line f1 : string) (flag : Z) (st : state) :
  Py.startswith "@" line = false ->
  Py.item (fields line) 1 = Ok f1 ->
  Py.int_of_str f1 = Ok flag ->
  Z.land flag 4 = 4 \/ Z.land flag 256 = 256 ->
  exists e, inter_sam_line args umi_list st line = Raise e.
Proof.
  intros Hh H1 Hf Hbits.
  unfold inter_sam_line; rewrite Hh.
  destruct (sam_info_init args umi_list line) as [r | e] eqn:E; simpl;
    [| eauto].
  apply sam_info_init_ok in E; destruct E as (_ & _ & _ & _ & Hb & _).
  rewrite (bit_check_unmapped _ _ _ H1 Hf Hbits) in Hb; discriminate.
Qed.

(** C5. A record with the unmapped bit (flag 4) or the secondary bit
    (flag 256) is not counted and skipped: [bit_check] reads the global
    [COUNT], which does not exist, and raises [NameError], in every
    configuration and in every state, before [UnMap] is touched. A run
    that meets such a record ends there: [NR] counts the record, [UnMap]
    is still 0, what was stored before stays in the dictionary, and
    neither the records nor the summary are written. *)
Theorem unmapped_record_not_counted (args : Args) (umi_list : list string)
    (st : state) (rest : list string) :
  bit_check Sample.unmapped = Raise NameError /\
  bit_check Sample.secondary = Raise NameError /\
  inter_sam_line args umi_list st Sample.unmapped = Raise NameError /\
  inter_sam_line args umi_list st Sample.secondary = Raise NameError /\
  (exists st',
      main args umi_list (Sample.unmapped :: rest) = (st', Aborted NameError) /\
      NR st' = 1 /\ UnMap st' = 0 /\ place st' = [] /\ dedup st' = []) /\
  (exists st',
      main Sample.first_seen_mode [] [Sample.k1_q30; Sample.unmapped] =
        (st', Aborted NameError) /\
      NR st' = 2 /\ UnMap st' = 0 /\
      place st' = [(Sample.K1, (Sample.k1_q30, "30"%string))] /\
      dedup st' = []).
Proof.
  split; [reflexivity |].
  split; [reflexivity |].
  split; [reflexivity |].
  split; [reflexivity |].
  split.
  - eexists; split; [reflexivity | repeat split].
  - eexists; split; [vm_compute; reflexivity | repeat split].
Qed.

(** ** The end-to-end scenario *)

(** C3. The run on the scenario (two records at K1 of qualities 30 and
    40, one record at a second key, one unmapped record, quality option
    on) ends with [NameError] at the unmapped record. At that moment the
    header line is written, [NR] is 4, [UnMap] is 0 and the dictionary
    holds the record of quality 40 and the record of the second key, but
    the writer and the summary are never reached: [tot] is 0 and no record
    is in the output. With the unmapped record written with CIGAR [*] the
    run ends in the same state with [IndexError]. Without the unmapped
    record the run finishes, writes these two records and counts 3
    processed, 2 retained and 1 duplicate removed. *)
Theorem scenario_run :
  (exists st,
      main Sample.quality_mode [] Sample.scenario = (st, Aborted NameError) /\
      dedup st = [Sample.header] /\
      NR st = 4 /\ UnMap st = 0 /\ tot st = 0 /\
      map fst (dict_values (place st)) = [Sample.k1_q40; Sample.k2_unique]) /\
  (exists st,
      main Sample.quality_mode [] Sample.scenario_star =
        (st, Aborted IndexError) /\
      dedup st = [Sample.header] /\
      NR st = 4 /\ UnMap st = 0 /\ tot st = 0 /\
      map fst (dict_values (place st)) = [Sample.k1_q40; Sample.k2_unique]) /\
  exists st,
    main Sample.quality_mode [] Sample.scenario_mapped = (st, Finished) /\
    dedup st = [Sample.header; Sample.k1_q40; Sample.k2_unique] /\
    total_processed st = 3 /\ total_unmapped st = 0 /\
    reads_retained Sample.quality_mode st = 2 /\
    duplicates_removed st = 1.
Proof.
  split; [eexists; split; [vm_compute; reflexivity | repeat split] |].
  split; [eexists; split; [vm_compute; reflexivity | repeat split] |].
  eexists; split; [vm_compute; reflexivity |].
  repeat split; vm_compute; reflexivity.
Qed.

(** ** Lines that are not alignment records *)

(** [__init__] needs the sixth field of the line. *)
Lemma sam_info_init_short (args : Args) (umi_list : list string)
    (line : string) :
  (List.length (fields line) < 6)%nat ->
  exists e, sam_info_init args umi_list line = Raise e /\
            (e = IndexError \/ e = ValueError).
Proof.
  intros Hlen; unfold sam_info_init, start_pos.
  destruct (Py.item (fields line) 2) as [c |] eqn:E2; simpl.
  2:{ unfold Py.item in E2; destruct (nth_error (fields line) 2);
        inversion E2; eauto. }
  destruct (Py.item (fields line) 3) as [f3 |] eqn:E3; simpl.
  2:{ unfold Py.item in E3; destruct (nth_error (fields line) 3);
        inversion E3; eauto. }
  destruct (Py.int_of_str f3) as [pos |] eqn:E; simpl.
  2:{ unfold Py.int_of_str in E.
      destruct (match Py.rstrip (Py.lstrip f3) with
                | String "+"%char r => Py.digits 0 false r
                | String "-"%char r => option_map Z.opp (Py.digits 0 false r)
                | _ => Py.digits 0 false (Py.rstrip (Py.lstrip f3))
                end); inversion E; eauto. }
  rewrite (item_short (fields line) 5); [simpl; eauto | lia].
Qed.

(** The line of two fields ends the pass: the claim that a malformed line
    is skipped fails on it. *)
Lemma malformed_line_crashes :
  inter_sam_line Sample.quality_mode [] initial_state Sample.missing_fields =
    Raise IndexError /\
  ~ (exists st,
        inter_sam Sample.quality_mode [] initial_state
          [Sample.missing_fields; Sample.k1_q30] = Ok st).
Proof.
  split; [vm_compute; reflexivity |].
  intros [st H]; vm_compute in H; discriminate.
Qed.

(** C7, amended. A line that is not a header and has fewer than six
    tab-separated fields is not skipped: the body of the loop raises
    [IndexError] or [ValueError] on it in every state, and every pass over
    a stream that contains the line ends with an exception, so that
    nothing is stored for the line and no later line is read. *)
Theorem malformed_line_aborts (args : Args) (umi_list : list string)
    (line : string) (pre post : list string) (st : state) :
  Py.startswith "@" line = false ->
  (List.length (fields line) < 6)%nat ->
  (forall s, exists e,
      inter_sam_line args umi_list s line = Raise e /\
      (e = IndexError \/ e = ValueError)) /\
  (exists e, inter_sam args umi_list st (pre ++ line :: post) = Raise e).
Proof.
  intros Hh Hlen.
  assert (Hstep : forall s, exists e,
             inter_sam_line args umi_list s line = Raise e /\
             (e = IndexError \/ e = ValueError)).
  { intros s; unfold inter_sam_line; rewrite Hh.
    destruct (sam_info_init_short args umi_list line Hlen) as (e & -> & He).
    exists e; split; [reflexivity | exact He]. }
  split; [exact Hstep |].
  apply pass_raises_at; intros s.
  destruct (Hstep s) as (e & He & _); eauto.
Qed.

Lemma malformed_line_aborts_witness :
  (forall s, exists e,
      inter_sam_line Sample.quality_mode [] s Sample.missing_fields = Raise e /\
      (e = IndexError \/ e = ValueError)) /\
  (exists e,
      inter_sam Sample.quality_mode [] initial_state
        ([Sample.header; Sample.k1_q30] ++
         Sample.missing_fields :: [Sample.k2_unique]) = Raise e).
Proof.
  apply (malformed_line_aborts Sample.quality_mode [] Sample.missing_fields
           [Sample.header; Sample.k1_q30] [Sample.k2_unique] initial_state).
  - reflexivity.
  - vm_compute; lia.
Defined.

(** ** Molecular tags *)

Lemma existsb_eqb_In (tag : string) (l : list string) :
  existsb (String.eqb tag) l = true <-> In tag l.
Proof.
  rewrite existsb_exists; split.
  - intros (x & Hin & E); apply String.eqb_eq in E; subst; exact Hin.
  - intros Hin; exists tag; split; [exact Hin | apply String.eqb_refl].
Qed.

(** [barcode_get] in terms of the tag read from the name. *)
Lemma barcode_get_ok (args : Args) (umi_list : list string) (line bc : string) :
  barcode_get args umi_list line = Ok bc ->
  exists tag,
    raw_tag line = Ok tag /\
    bc = (if umi args
          then if existsb (String.eqb tag) umi_list then tag else EmptyString
          else tag).
Proof.
  unfold barcode_get; intros H; invert_bind H.
  exists x; split; [exact Hx |].
  destruct (umi args); [| inversion H; reflexivity].
  destruct (existsb (String.eqb x) umi_list); [inversion H; reflexivity |].
  invert_bind H; inversion H; reflexivity.
Qed.

(** C8. For a line on which [__init__] returns (a mapped, primary
    alignment): with validation on, a tag of the known list is kept as the
    barcode, and a tag outside the list is replaced by the empty string,
    after which the line adds 1 to [badBc] and leaves the dictionary as it
    was; with validation off the barcode is the tag as read. A record whose
    barcode is not empty reaches the dictionary: its key is present after
    the line, with the record itself when the key was new, and [badBc] is
    unchanged. *)
Theorem tag_validation (args : Args) (umi_list : list string) (line : string)
    (r : sam_info) (st : state) :
  Py.startswith "@" line = false ->
  sam_info_init args umi_list line = Ok r ->
  exists tag,
    raw_tag line = Ok tag /\
    (umi args = true -> In tag umi_list -> self_BC r = tag) /\
    (umi args = true -> ~ In tag umi_list ->
     self_BC r = EmptyString /\
     exists st',
       inter_sam_line args umi_list st line = Ok st' /\
       place st' = place st /\ badBc st' = badBc st + 1) /\
    (umi args = false -> self_BC r = tag) /\
    (self_BC r <> EmptyString ->
     exists st' e,
       inter_sam_line args umi_list st line = Ok st' /\
       dict_get (key_of r) (place st') = Some e /\
       (dict_get (key_of r) (place st) = None ->
        e = (line, self_qual_score r)) /\
       badBc st' = badBc st).
Proof.
  intros Hh Hinit.
  assert (Hu := sam_info_init_usable _ _ _ _ Hinit).
  destruct (sam_info_init_ok _ _ _ _ Hinit) as (Hl & _ & _ & _ & _ & Hbc).
  destruct (barcode_get_ok _ _ _ _ Hbc) as (tag & Htag & HBC).
  exists tag; split; [exact Htag |].
  split; [| split; [| split]].
  - intros Hum Hin; rewrite HBC, Hum.
    apply existsb_eqb_In in Hin; rewrite Hin; reflexivity.
  - intros Hum Hnin.
    assert (Hex : existsb (String.eqb tag) umi_list = false).
    { destruct (existsb (String.eqb tag) umi_list) eqn:E; [| reflexivity].
      apply existsb_eqb_In in E; contradiction. }
    rewrite Hum, Hex in HBC; split; [exact HBC |].
    unfold inter_sam_line; rewrite Hh, Hinit; simpl.
    rewrite Hu, HBC; simpl.
    eexists; split; [reflexivity | split; reflexivity].
  - intros Hum; rewrite HBC, Hum; reflexivity.
  - intros Hne; apply String.eqb_neq in Hne.
    unfold inter_sam_line; rewrite Hh, Hinit; simpl.
    rewrite Hu, Hne.
    destruct (dict_get (key_of r) (place st)) as [cur |] eqn:Eg.
    + destruct (qual args);
        [destruct (Py.str_lt (snd cur) (self_qual_score r)) |].
      * eexists; eexists; split; [reflexivity |]; simpl.
        rewrite dict_get_set, key_eqb_refl.
        repeat split; [discriminate].
      * eexists; exists cur; split; [reflexivity |]; simpl.
        repeat split; [exact Eg | discriminate].
      * eexists; exists cur; split; [reflexivity |]; simpl.
        repeat split; [exact Eg | discriminate].
    + eexists; eexists; split; [reflexivity |]; simpl.
      rewrite dict_get_set, key_eqb_refl, Hl.
      repeat split.
Qed.

Lemma tag_validation_witness :
  exists tag,
    raw_tag Sample.known_tag = Ok tag /\
    (umi Sample.umi_mode = true -> In tag Sample.known_tags ->
     self_BC Sample.known_tag_info = tag) /\
    (umi Sample.umi_mode = true -> ~ In tag Sample.known_tags ->
     self_BC Sample.known_tag_info = EmptyString /\
     exists st',
       inter_sam_line Sample.umi_mode Sample.known_tags initial_state
         Sample.known_tag = Ok st' /\
       place st' = place initial_state /\
       badBc st' = badBc initial_state + 1) /\
    (umi Sample.umi_mode = false -> self_BC Sample.known_tag_info = tag) /\
    (self_BC Sample.known_tag_info <> EmptyString ->
     exists st' e,
       inter_sam_line Sample.umi_mode Sample.known_tags initial_state
         Sample.known_tag = Ok st' /\
       dict_get (key_of Sample.known_tag_info) (place st') = Some e /\
       (dict_get (key_of Sample.known_tag_info) (place initial_state) = None ->
        e = (Sample.known_tag, self_qual_score Sample.known_tag_info)) /\
       badBc st' = badBc initial_state).
Proof.
  apply (tag_validation Sample.umi_mode Sample.known_tags Sample.known_tag
           Sample.known_tag_info initial_state).
  - reflexivity.
  - vm_compute; reflexivity.
Defined.

(** With the list [AACCCG, AAGCTC]: the record tagged AACCCG is stored,
    the record tagged ZZZZZZ is counted as an unidentified barcode. *)
Example known_and_unknown_tag :
  exists st,
    inter_sam Sample.umi_mode Sample.known_tags initial_state
      [Sample.known_tag; Sample.unknown_tag] = Ok st /\
    map fst (dict_values (place st)) = [Sample.known_tag] /\
    badBc st = 1 /\ NR st = 2.
Proof.
  eexists; split; [vm_compute; reflexivity | repeat split].
Qed.

(** ** Records that reach the dictionary *)

Lemma step_record (args : Args) (umi_list : list string) (st : state)
    (line : string) (r : sam_info) :
  Py.startswith "@" line = false ->
  sam_info_init args umi_list line = Ok r ->
  self_BC r <> EmptyString ->
  inter_sam_line args umi_list st line =
  Ok (match dict_get (key_of r) (place st) with
      | Some cur =>
          if qual args && Py.str_lt (snd cur) (self_qual_score r)
          then set_place (incr_NR st)
                 (dict_set (key_of r) (line, self_qual_score r) (place st))
          else incr_NR st
      | None =>
          set_place (incr_NR st)
            (dict_set (key_of r) (line, self_qual_score r) (place st))
      end).
Proof.
  intros Hh Hinit Hne.
  assert (Hu := sam_info_init_usable _ _ _ _ Hinit).
  assert (Hl : self_line r = line) by (apply sam_info_init_ok in Hinit; tauto).
  apply String.eqb_neq in Hne.
  unfold inter_sam_line; rewrite Hh, Hinit; simpl.
  rewrite Hu, Hne, Hl.
  destruct (dict_get (key_of r) (place st)) as [cur |]; [| reflexivity].
  destruct (qual args); [| reflexivity].
  destruct (Py.str_lt (snd cur) (self_qual_score r)); reflexivity.
Qed.

(** ** Qualities are compared as text *)

(** C9. The quality kept with a record is field 5 of its line, as text.
    With the quality option on, when two records with the same key have
    the MAPQ fields 30 and 9, in this order, the test of the pass is the
    comparison of the strings, 30 is below 9, and the second record
    replaces the first. *)
Theorem quality_compared_as_text (args : Args) (umi_list : list string)
    (l1 l2 : string) (r1 r2 : sam_info) :
  qual args = true ->
  Py.startswith "@" l1 = false ->
  Py.startswith "@" l2 = false ->
  sam_info_init args umi_list l1 = Ok r1 ->
  sam_info_init args umi_list l2 = Ok r2 ->
  self_BC r1 <> EmptyString ->
  key_of r1 = key_of r2 ->
  Py.item (fields l1) 4 = Ok "30"%string ->
  Py.item (fields l2) 4 = Ok "9"%string ->
  self_qual_score r1 = "30"%string /\
  self_qual_score r2 = "9"%string /\
  Py.str_lt (self_qual_score r1) (self_qual_score r2) = true /\
  exists st,
    inter_sam args umi_list initial_state [l1; l2] = Ok st /\
    place st = [(key_of r2, (l2, "9"%string))].
Proof.
  intros Hq Hh1 Hh2 H1 H2 Hne Hk Hq1 Hq2.
  destruct (sam_info_init_ok _ _ _ _ H1) as (_ & _ & _ & Hf1 & _ & _).
  destruct (sam_info_init_ok _ _ _ _ H2) as (_ & _ & _ & Hf2 & _ & _).
  rewrite Hq1 in Hf1; inversion Hf1 as [E1].
  rewrite Hq2 in Hf2; inversion Hf2 as [E2].
  assert (Hne2 : self_BC r2 <> EmptyString).
  { unfold key_of in Hk; inversion Hk; congruence. }
  split; [reflexivity |]; split; [reflexivity |]; split; [reflexivity |].
  eexists; split.
  - cbn [inter_sam bind].
    rewrite (step_record _ _ _ _ _ Hh1 H1 Hne).
    cbn [place initial_state dict_get bind dict_set].
    rewrite (step_record _ _ _ _ _ Hh2 H2 Hne2).
    cbn [place set_place dict_get].
    rewrite Hk, key_eqb_refl, Hq, <- E1, <- E2.
    cbn [snd andb]. reflexivity.
  - cbn [place set_place dict_set].
    rewrite key_eqb_refl; reflexivity.
Qed.

Lemma quality_compared_as_text_witness :
  self_qual_score Sample.k1_q30_info = "30"%string /\
  self_qual_score Sample.k1_q9_info = "9"%string /\
  Py.str_lt (self_qual_score Sample.k1_q30_info)
    (self_qual_score Sample.k1_q9_info) = true /\
  exists st,
    inter_sam Sample.quality_mode [] initial_state
      [Sample.k1_q30; Sample.k1_q9] = Ok st /\
    place st = [(key_of Sample.k1_q9_info, (Sample.k1_q9, "9"%string))].
Proof.
  apply (quality_compared_as_text Sample.quality_mode [] Sample.k1_q30
           Sample.k1_q9 Sample.k1_q30_info Sample.k1_q9_info).
  - reflexivity.
  - reflexivity.
  - reflexivity.
  - vm_compute; reflexivity.
  - vm_compute; reflexivity.
  - simpl; discriminate.
  - reflexivity.
  - vm_compute; reflexivity.
  - vm_compute; reflexivity.
Defined.

(** ** The paired-end writer *)

Lemma insert_sorted_length {A : Type} (lt : A -> A -> bool) (x : A)
    (l : list A) :
  List.length (Py.insert_sorted lt x l) = S (List.length l).
Proof.
  induction l as [| y t IH]; simpl; [reflexivity |].
  destruct (lt x y); simpl; [reflexivity | rewrite IH; reflexivity].
Qed.

Lemma sorted_length {A : Type} (lt : A -> A -> bool) (l : list A) :
  List.length (Py.sorted lt l) = List.length l.
Proof.
  unfold Py.sorted.
  assert (H : forall acc,
             List.length (fold_left (fun acc x => Py.insert_sorted lt x acc) l acc)
             = (List.length l + List.length acc)%nat).
  { induction l as [| x t IH]; intros acc; simpl; [reflexivity |].
    rewrite IH, insert_sorted_length; lia. }
  rewrite H; simpl; lia.
Qed.

(** What the test of the loop returns. *)
Lemma pair_test_ok (a b a' b' : entry) (t : bool) :
  pair_test [a; b] = Ok (a', b', t) ->
  a' = a /\ b' = b /\
  exists p q,
    Py.item (fields (fst a)) 3 = Ok p /\ Py.item (fields (fst b)) 7 = Ok q /\
    t = String.eqb p q.
Proof.
  unfold pair_test; cbn [Py.item nth_error bind]; intros H.
  invert_bind H. invert_bind H.
  inversion H; subst; eauto 8.
Qed.

Lemma walk_pairs_short (vals : list entry) (st : state) :
  (List.length vals <= 1)%nat -> walk_pairs vals st = (st, Finished).
Proof.
  destruct vals as [| a [| b rest]]; simpl; intros H; try reflexivity; lia.
Qed.

Lemma skipn_two {A : Type} (l : list A) (n : nat) :
  (n + 2 <= List.length l)%nat ->
  exists a b, skipn n l = a :: b :: skipn (n + 2) l.
Proof.
  revert l; induction n as [| n IH]; intros l H.
  - destruct l as [| a [| b rest]]; simpl in H; try lia.
    exists a, b; reflexivity.
  - destruct l as [| x l]; simpl in H; [lia |].
    destruct (IH l) as (a & b & E); [lia |].
    exists a, b; simpl; exact E.
Qed.

Lemma skipn_succ_tail {A : Type} (l : list A) (n : nat) (a : A) (t : list A) :
  skipn n l = a :: t -> skipn (n + 1) l = t.
Proof.
  revert l; induction n as [| n IH]; intros l H; simpl in *.
  - subst; reflexivity.
  - destruct l as [| x l]; [discriminate | apply IH; exact H].
Qed.

(** With enough fuel, the loop of [pair_write] from position [pecount] is
    the walk over the values from that position on. *)
Lemma pair_loop_walk (fuel : nat) (vals : list entry) (pecount : nat)
    (st : state) :
  (List.length vals - pecount <= fuel)%nat ->
  pair_loop fuel vals (List.length vals) pecount st =
  walk_pairs (skipn pecount vals) st.
Proof.
  revert pecount st; induction fuel as [| fuel IH]; intros pecount st Hfuel.
  - simpl.
    destruct (Z.of_nat pecount <? Z.of_nat (List.length vals) - 1) eqn:E.
    + apply Z.ltb_lt in E; lia.
    + rewrite walk_pairs_short; [reflexivity |].
      rewrite length_skipn; lia.
  - cbn [pair_loop].
    destruct (Z.of_nat pecount <? Z.of_nat (List.length vals) - 1) eqn:E.
    + apply Z.ltb_lt in E.
      destruct (skipn_two vals pecount) as (a & b & Es); [lia |].
      rewrite Es; cbn [firstn walk_pairs].
      destruct (pair_test [a; b]) as [[[a' b'] t] | e] eqn:Et; [| reflexivity].
      destruct (pair_test_ok _ _ _ _ _ Et) as (-> & -> & _).
      destruct t.
      * apply IH; lia.
      * rewrite IH by lia.
        rewrite (skipn_succ_tail _ _ _ _ Es); reflexivity.
    + apply Z.ltb_ge in E.
      rewrite walk_pairs_short; [reflexivity |].
      rewrite length_skipn; lia.
Qed.

Lemma paired_lines_even (out : list string) :
  paired_lines out -> Nat.Even (List.length out).
Proof.
  induction 1 as [| a b rest p Ha Hb Hrest [n IH]].
  - exists 0%nat; reflexivity.
  - exists (S n); simpl; lia.
Qed.

Lemma walk_pairs_cons (a b : entry) (rest : list entry) (st : state) :
  walk_pairs (a :: b :: rest) st =
  match pair_test [a; b] with
  | Raise e => (st, Aborted e)
  | Ok (_, _, true) => walk_pairs rest (add_peRemo (write st [fst a; fst b]) 2)
  | Ok (_, _, false) => walk_pairs (b :: rest) st
  end.
Proof. reflexivity. Qed.

(** What the walk writes and counts. *)
Lemma walk_pairs_emits (n : nat) (vals : list entry) (st st' : state)
    (o : outcome) :
  (List.length vals <= n)%nat ->
  walk_pairs vals st = (st', o) ->
  o <> OutOfFuel /\
  exists out,
    dedup st' = dedup st ++ out /\ paired_lines out /\
    peRemo st' = peRemo st + Z.of_nat (List.length out) /\
    place st' = place st.
Proof.
  revert vals st; induction n as [| n IH]; intros vals st Hlen H.
  - destruct vals; [| simpl in Hlen; lia].
    inversion H; subst; split; [discriminate |].
    exists []; rewrite app_nil_r; simpl; repeat split;
      [constructor | lia].
  - destruct vals as [| a [| b rest]];
      try (inversion H; subst; split; [discriminate |];
           exists []; rewrite app_nil_r; simpl; repeat split;
           [constructor | lia]).
    rewrite walk_pairs_cons in H.
    destruct (pair_test [a; b]) as [[[a' b'] t] | e] eqn:Et.
    + destruct (pair_test_ok _ _ _ _ _ Et) as (-> & -> & p & q & Hp & Hq & Ht).
      destruct t.
      * symmetry in Ht; apply String.eqb_eq in Ht; subst q.
        apply IH in H; [| simpl in Hlen; lia].
        destruct H as (Ho & out & Hd & Hpl & Hpe & Hplace).
        split; [exact Ho |].
        exists (fst a :: fst b :: out); simpl in *.
        rewrite Hd, <- app_assoc; simpl.
        repeat split; [econstructor; eauto | lia | exact Hplace].
      * apply IH in H; [exact H | simpl in Hlen; simpl; lia].
    + inversion H; subst; split; [discriminate |].
      exists []; rewrite app_nil_r; simpl; repeat split;
        [constructor | lia].
Qed.

(** C6. In paired-end mode the writer ends within its fuel, and is the
    walk over the sorted values of the dictionary that goes two values
    forward after writing an accepted pair, one value forward after a
    rejected one, and stops when fewer than two values are left (a last
    single value is not written). What it adds to the output is an even
    number of lines made of consecutive pairs [(a, b)] with field 4 of [a]
    equal to field 8 of [b], and [peRemo] grows by the number of lines
    written. This holds also when the test raises on a line without an
    eighth field, for what was written before. *)
Theorem paired_output_invariant (st : state) :
  pair_write st =
    walk_pairs (Py.sorted Py.pair_lt (dict_values (place st))) st /\
  snd (pair_write st) <> OutOfFuel /\
  exists out,
    dedup (fst (pair_write st)) = dedup st ++ out /\
    Nat.Even (List.length out) /\
    paired_lines out /\
    peRemo (fst (pair_write st)) = peRemo st + Z.of_nat (List.length out).
Proof.
  assert (Hw : pair_write st =
               walk_pairs (Py.sorted Py.pair_lt (dict_values (place st))) st).
  { unfold pair_write.
    set (vals := Py.sorted Py.pair_lt (dict_values (place st))).
    assert (Hlen : List.length (place st) = List.length vals).
    { unfold vals; rewrite sorted_length; unfold dict_values;
        rewrite length_map; reflexivity. }
    rewrite Hlen.
    apply (pair_loop_walk (List.length vals) vals 0 st).
    apply Nat.le_sub_l. }
  split; [exact Hw |].
  rewrite Hw.
  destruct (walk_pairs (Py.sorted Py.pair_lt (dict_values (place st))) st)
    as [st' o] eqn:E.
  destruct (walk_pairs_emits _ _ _ _ _ (Nat.le_refl _) E)
    as (Ho & out & Hd & Hpl & Hpe & _).
  split; [exact Ho |].
  exists out; simpl; repeat split; auto using paired_lines_even.
Qed.

(** Two mates and a single read: the mates are written, in the order of
    the sorted line texts, and the single read is not. *)
Example mates_written :
  exists st,
    main Sample.paired_mode []
      [Sample.header; Sample.mate1; Sample.k2_unique; Sample.mate2] =
      (st, Finished) /\
    dedup st = [Sample.header; Sample.mate2; Sample.mate1] /\
    reads_retained Sample.paired_mode st = 2 /\ non_paired st = 1.
Proof.
  eexists; split; [vm_compute; reflexivity | repeat split].
Qed.

(** * Further properties of the code *)

(** ** What one line does to the state *)

Lemma step_inv (args : Args) (umi_list : list string) (st st' : state)
    (line : string) :
  inter_sam_line args umi_list st line = Ok st' ->
  (is_header line = true /\ st' = write st [line]) \/
  (is_header line = false /\
   exists r,
     sam_info_init args umi_list line = Ok r /\
     ((self_BC r = EmptyString /\ usable r = false /\
       st' = incr_badBc (incr_NR st)) \/
      (self_BC r <> EmptyString /\ usable r = true /\
       st' = match dict_get (key_of r) (place st) with
             | Some cur =>
                 if qual args && Py.str_lt (snd cur) (self_qual_score r)
                 then set_place (incr_NR st)
                        (dict_set (key_of r) (line, self_qual_score r)
                           (place st))
                 else incr_NR st
             | None =>
                 set_place (incr_NR st)
                   (dict_set (key_of r) (line, self_qual_score r) (place st))
             end))).
Proof.
  intros H; unfold is_header.
  destruct (Py.startswith "@" line) eqn:Hh.
  - left; unfold inter_sam_line in H; rewrite Hh in H.
    inversion H; auto.
  - right; split; [reflexivity |].
    destruct (sam_info_init args umi_list line) as [r | e] eqn:Hinit.
    2:{ unfold inter_sam_line in H; rewrite Hh, Hinit in H; discriminate. }
    exists r; split; [reflexivity |].
    assert (Hu := sam_info_init_usable _ _ _ _ Hinit).
    destruct (String.eqb (self_BC r) EmptyString) eqn:Hbc.
    + left; unfold inter_sam_line in H; rewrite Hh, Hinit in H; simpl in H.
      rewrite Hu, Hbc in H; inversion H.
      apply String.eqb_eq in Hbc.
      unfold usable; rewrite Hu, Hbc; auto.
    + right.
      assert (Hne : self_BC r <> EmptyString) by (apply String.eqb_neq; exact Hbc).
      rewrite (step_record _ _ _ _ _ Hh Hinit Hne) in H; inversion H.
      unfold usable; rewrite Hu, Hbc; auto.
Qed.

Lemma seen_dict_get (k : key) (d : dict) :
  seen k (dict_keys d) =
  match dict_get k d with Some _ => true | None => false end.
Proof.
  induction d as [| [k0 v0] t IH]; simpl; [reflexivity |].
  destruct (key_eqb k k0); simpl; [reflexivity | exact IH].
Qed.

Lemma dict_set_absent (k : key) (v : entry) (d : dict) :
  dict_get k d = None -> dict_set k v d = d ++ [(k, v)].
Proof.
  induction d as [| [k0 v0] t IH]; simpl; [reflexivity |].
  destruct (key_eqb k k0); [discriminate |].
  intros H; rewrite (IH H); reflexivity.
Qed.

Lemma dict_set_length_present (k : key) (v v' : entry) (d : dict) :
  dict_get k d = Some v' -> List.length (dict_set k v d) = List.length d.
Proof.
  induction d as [| [k0 v0] t IH]; simpl; [discriminate |].
  destruct (key_eqb k k0); simpl; [reflexivity |].
  intros H; rewrite (IH H); reflexivity.
Qed.

Lemma arrivals_cons (args : Args) (umi_list : list string) (line : string)
    (rest : list string) :
  arrivals args umi_list (line :: rest) =
  arrivals args umi_list [line] ++ arrivals args umi_list rest.
Proof.
  simpl.
  destruct (is_header line); [reflexivity |].
  destruct (sam_info_init args umi_list line) as [r | e]; [| reflexivity].
  destruct (usable r); reflexivity.
Qed.

(** One line: what is written, what is counted, which key is added. *)
Lemma step_effect (args : Args) (umi_list : list string) (st st' : state)
    (line : string) :
  inter_sam_line args umi_list st line = Ok st' ->
  dedup st' = dedup st ++ headers [line] /\
  NR st' = NR st + Z.of_nat (List.length (records [line])) /\
  peRemo st' = peRemo st /\ tot st' = tot st /\
  dict_keys (place st') =
    first_occurrences (dict_keys (place st)) (arrivals args umi_list [line]) /\
  NR st' - NR st =
    (badBc st' - badBc st) +
    Z.of_nat (List.length (arrivals args umi_list [line])).
Proof.
  intros H; apply step_inv in H.
  destruct H as [[Hh ->] | [Hh (r & Hinit & [(Hbc & Hu & ->) | (Hbc & Hu & ->)])]];
    unfold headers, records, first_occurrences; simpl; rewrite Hh; simpl.
  - repeat split; lia.
  - rewrite Hinit, Hu, app_nil_r; simpl; repeat split; lia.
  - rewrite Hinit, Hu, app_nil_r; simpl.
    rewrite seen_dict_get.
    destruct (dict_get (key_of r) (place st)) as [cur |] eqn:Eg.
    + destruct (qual args && Py.str_lt (snd cur) (self_qual_score r));
        simpl; repeat split; try lia.
      apply (dict_keys_set_present _ _ _ _ Eg).
    + simpl; repeat split; try lia.
      apply (dict_keys_set_absent _ _ _ Eg).
Qed.

Lemma first_occurrences_app (acc ks1 ks2 : list key) :
  first_occurrences acc (ks1 ++ ks2) =
  first_occurrences (first_occurrences acc ks1) ks2.
Proof. unfold first_occurrences; apply fold_left_app. Qed.

(** ** What the pass writes and counts *)

(** What the pass writes and counts, for use below. *)
Lemma pass_effect (args : Args) (umi_list : list string)
    (sam : list string) (st st' : state) :
  inter_sam args umi_list st sam = Ok st' ->
  dedup st' = dedup st ++ headers sam /\
  NR st' = NR st + Z.of_nat (List.length (records sam)) /\
  peRemo st' = peRemo st /\ tot st' = tot st.
Proof.
  revert st; induction sam as [| line rest IH]; intros st H.
  - inversion H; subst; simpl; rewrite app_nil_r; repeat split; lia.
  - simpl in H; invert_bind H.
    destruct (step_effect _ _ _ _ _ Hx) as (Hd & Hn & Hp & Ht & _).
    destruct (IH _ H) as (Hd' & Hn' & Hp' & Ht').
    rewrite Hd', Hn', Hp', Ht', Hd, Hn, Hp, Ht.
    unfold headers, records in *; simpl.
    destruct (is_header line); simpl; rewrite <- ?app_assoc; simpl;
      repeat split; lia.
Qed.

(** The keys after the pass, for use below. *)
Lemma pass_keys (args : Args) (umi_list : list string)
    (sam : list string) (st st' : state) :
  inter_sam args umi_list st sam = Ok st' ->
  dict_keys (place st') =
    first_occurrences (dict_keys (place st)) (arrivals args umi_list sam) /\
  NR st' - NR st =
    (badBc st' - badBc st) +
    Z.of_nat (List.length (arrivals args umi_list sam)).
Proof.
  revert st; induction sam as [| line rest IH]; intros st H.
  - inversion H; subst; simpl; split; [reflexivity | lia].
  - simpl in H; invert_bind H.
    destruct (step_effect _ _ _ _ _ Hx) as (_ & _ & _ & _ & Hk & Hc).
    destruct (IH _ H) as (Hk' & Hc').
    rewrite arrivals_cons, first_occurrences_app, <- Hk, <- Hk'.
    split; [reflexivity |].
    rewrite length_app; lia.
Qed.

(** X1. A completed pass adds to the output file the header lines of the
    stream, as they are and in their order, and nothing else; [NR] grows
    by the number of the other lines; [peRemo] and [tot] are not
    touched. *)
Theorem pass_copies_headers (args : Args) (umi_list : list string)
    (sam : list string) (st st' : state) :
  inter_sam args umi_list st sam = Ok st' ->
  dedup st' = dedup st ++ headers sam /\
  NR st' = NR st + Z.of_nat (List.length (records sam)) /\
  peRemo st' = peRemo st /\ tot st' = tot st.
Proof.
  exact (pass_effect args umi_list sam st st').
Qed.

Lemma pass_copies_headers_witness :
  dedup Cases.after_stream_quality =
    dedup initial_state ++ headers Cases.stream /\
  NR Cases.after_stream_quality =
    NR initial_state + Z.of_nat (List.length (records Cases.stream)) /\
  peRemo Cases.after_stream_quality = peRemo initial_state /\
  tot Cases.after_stream_quality = tot initial_state.
Proof.
  apply (pass_copies_headers Sample.quality_mode [] Cases.stream
           initial_state Cases.after_stream_quality).
  vm_compute; reflexivity.
Defined.

(** X2. After a completed pass the keys of the dictionary are the keys
    it had, followed by the new keys among those of the records that
    reached it, each once and in the order of its first arrival: no key is
    removed or moved. Every line counted by [NR] either added 1 to [badBc]
    or reached the dictionary. *)
Theorem pass_keys_in_arrival_order (args : Args) (umi_list : list string)
    (sam : list string) (st st' : state) :
  inter_sam args umi_list st sam = Ok st' ->
  dict_keys (place st') =
    first_occurrences (dict_keys (place st)) (arrivals args umi_list sam) /\
  NR st' - NR st =
    (badBc st' - badBc st) +
    Z.of_nat (List.length (arrivals args umi_list sam)).
Proof.
  exact (pass_keys args umi_list sam st st').
Qed.

Lemma pass_keys_in_arrival_order_witness :
  dict_keys (place Cases.after_stream_quality) =
    first_occurrences (dict_keys (place initial_state))
      (arrivals Sample.quality_mode [] Cases.stream) /\
  NR Cases.after_stream_quality - NR initial_state =
    (badBc Cases.after_stream_quality - badBc initial_state) +
    Z.of_nat (List.length (arrivals Sample.quality_mode [] Cases.stream)).
Proof.
  apply (pass_keys_in_arrival_order Sample.quality_mode [] Cases.stream
           initial_state Cases.after_stream_quality).
  vm_compute; reflexivity.
Defined.

(** ** Which streams the pass gets through *)

Lemma step_ok_parses (args : Args) (umi_list : list string) (st : state)
    (line : string) :
  is_ok (inter_sam_line args umi_list st line) = parses args umi_list line.
Proof.
  unfold inter_sam_line, parses, is_header.
  destruct (Py.startswith "@" line); [reflexivity |]; simpl.
  destruct (sam_info_init args umi_list line) as [r | e] eqn:E; simpl;
    [| reflexivity].
  rewrite (sam_info_init_usable _ _ _ _ E).
  destruct (String.eqb (self_BC r) EmptyString); [reflexivity |].
  destruct (dict_get (key_of r) (place st)) as [cur |];
    [| reflexivity].
  destruct (qual args); [| reflexivity].
  destruct (Py.str_lt (snd cur) (self_qual_score r)); reflexivity.
Qed.

(** When the pass completes, for use below. *)
Lemma pass_completes (args : Args) (umi_list : list string)
    (sam : list string) (st : state) :
  (exists st', inter_sam args umi_list st sam = Ok st') <->
  forallb (parses args umi_list) sam = true.
Proof.
  revert st; induction sam as [| line rest IH]; intros st; simpl.
  - split; [reflexivity | eauto].
  - rewrite <- (step_ok_parses args umi_list st line).
    destruct (inter_sam_line args umi_list st line) as [st1 | e]; simpl.
    + apply IH.
    + split; [intros [st' H]; discriminate | discriminate].
Qed.

(** X3. Whether the pass completes depends on the lines alone: it
    completes exactly when every line is a header line or a line on which
    [__init__] returns, whatever the state it starts in and whatever the
    dictionary holds. *)
Theorem pass_completes_iff (args : Args) (umi_list : list string)
    (sam : list string) (st : state) :
  (exists st', inter_sam args umi_list st sam = Ok st') <->
  forallb (parses args umi_list) sam = true.
Proof.
  exact (pass_completes args umi_list sam st).
Qed.

Lemma sam_info_init_umi (a1 a2 : Args) (umi_list : list string)
    (line : string) :
  umi a1 = umi a2 ->
  sam_info_init a1 umi_list line = sam_info_init a2 umi_list line.
Proof.
  intros H; unfold sam_info_init, barcode_get; rewrite H; reflexivity.
Qed.

Lemma arrivals_umi (a1 a2 : Args) (umi_list : list string)
    (sam : list string) :
  umi a1 = umi a2 -> arrivals a1 umi_list sam = arrivals a2 umi_list sam.
Proof.
  intros H; induction sam as [| line rest IH]; simpl; [reflexivity |].
  rewrite (sam_info_init_umi a1 a2 umi_list line H), IH; reflexivity.
Qed.

Lemma parses_umi (a1 a2 : Args) (umi_list : list string) (line : string) :
  umi a1 = umi a2 -> parses a1 umi_list line = parses a2 umi_list line.
Proof.
  intros H; unfold parses.
  rewrite (sam_info_init_umi a1 a2 umi_list line H); reflexivity.
Qed.

Lemma forallb_parses_umi (a1 a2 : Args) (umi_list : list string)
    (sam : list string) :
  umi a1 = umi a2 ->
  forallb (parses a1 umi_list) sam = forallb (parses a2 umi_list) sam.
Proof.
  intros H; induction sam as [| line rest IH]; simpl; [reflexivity |].
  rewrite (parses_umi a1 a2 umi_list line H), IH; reflexivity.
Qed.

(** X4. The options [-q] and [-p] change neither whether the pass
    completes nor what it counts and which keys it stores: two runs of the
    pass over the same stream that differ only in these options end with
    the same keys in the same order, the same [NR] and [badBc] and the same
    header output. Only the record kept under a key can differ. *)
Theorem quality_option_keeps_keys (a1 a2 : Args) (umi_list : list string)
    (sam : list string) (s1 : state) :
  umi a1 = umi a2 ->
  inter_sam a1 umi_list initial_state sam = Ok s1 ->
  exists s2,
    inter_sam a2 umi_list initial_state sam = Ok s2 /\
    dict_keys (place s2) = dict_keys (place s1) /\
    NR s2 = NR s1 /\ badBc s2 = badBc s1 /\ dedup s2 = dedup s1.
Proof.
  intros Hu H1.
  assert (Hc : exists s2, inter_sam a2 umi_list initial_state sam = Ok s2).
  { apply pass_completes.
    rewrite <- (forallb_parses_umi a1 a2 umi_list sam Hu).
    apply (pass_completes a1 umi_list sam initial_state); eauto. }
  destruct Hc as [s2 H2]; exists s2; split; [exact H2 |].
  destruct (pass_keys _ _ _ _ _ H1) as (K1 & C1).
  destruct (pass_keys _ _ _ _ _ H2) as (K2 & C2).
  destruct (pass_effect _ _ _ _ _ H1) as (D1 & N1 & _).
  destruct (pass_effect _ _ _ _ _ H2) as (D2 & N2 & _).
  rewrite (arrivals_umi a1 a2 umi_list sam Hu) in K1, C1.
  rewrite K1, K2, D1, D2, N1, N2; repeat split.
  simpl in *; lia.
Qed.

Lemma quality_option_keeps_keys_witness :
  exists s2,
    inter_sam Sample.first_seen_mode [] initial_state Cases.stream = Ok s2 /\
    dict_keys (place s2) = dict_keys (place Cases.after_stream_quality) /\
    NR s2 = NR Cases.after_stream_quality /\
    badBc s2 = badBc Cases.after_stream_quality /\
    dedup s2 = dedup Cases.after_stream_quality.
Proof.
  apply (quality_option_keeps_keys Sample.quality_mode Sample.first_seen_mode
           [] Cases.stream Cases.after_stream_quality).
  - reflexivity.
  - vm_compute; reflexivity.
Defined.

(** ** The entries of the dictionary *)

Lemma dict_set_in_key (k k' : key) (v e : entry) (d : dict) :
  In (k, e) (dict_set k' v d) -> In (k, e) d \/ (k = k' /\ e = v).
Proof.
  induction d as [| [k0 v0] t IH]; simpl.
  - intros [H | []]; inversion H; auto.
  - destruct (key_eqb k' k0) eqn:E; simpl; intros [H | H].
    + apply key_eqb_eq in E; inversion H; subst; auto.
    + auto.
    + auto.
    + destruct (IH H) as [? | ?]; auto.
Qed.

Lemma step_entries (args : Args) (umi_list : list string) (st st' : state)
    (line : string) (e : key * entry) :
  inter_sam_line args umi_list st line = Ok st' ->
  In e (place st') ->
  In e (place st) \/ (fst (snd e) = line /\ entry_ok args umi_list e).
Proof.
  intros H Hin; apply step_inv in H.
  destruct H as [[Hh ->] | [Hh (r & Hinit & [(Hbc & Hu & ->) | (Hbc & Hu & ->)])]];
    try (left; exact Hin).
  assert (Hset : In e (dict_set (key_of r) (line, self_qual_score r) (place st)) ->
                 In e (place st) \/ (fst (snd e) = line /\ entry_ok args umi_list e)).
  { destruct e as [k v]; intros Hs.
    apply dict_set_in_key in Hs; destruct Hs as [Hs | [-> ->]]; [auto |].
    right; split; [reflexivity |].
    split; [exact Hh |]; exists r; simpl; auto. }
  destruct (dict_get (key_of r) (place st)) as [cur |].
  - destruct (qual args && Py.str_lt (snd cur) (self_qual_score r));
      simpl in Hin; auto.
  - simpl in Hin; auto.
Qed.

Lemma pass_entries (args : Args) (umi_list : list string) (sam : list string)
    (st st' : state) (e : key * entry) :
  inter_sam args umi_list st sam = Ok st' ->
  In e (place st') ->
  In e (place st) \/ (In (fst (snd e)) sam /\ entry_ok args umi_list e).
Proof.
  revert st; induction sam as [| line rest IH]; intros st H Hin.
  - inversion H; subst; auto.
  - simpl in H; invert_bind H.
    destruct (IH _ H Hin) as [Hold | [Hi Hok]].
    + destruct (step_entries _ _ _ _ _ _ Hx Hold) as [? | [El Hok]]; auto.
      right; split; [left; auto | exact Hok].
    + right; split; [right; exact Hi | exact Hok].
Qed.

(** X5. After a completed pass every entry [(k, (line, q))] of the
    dictionary holds a line of the stream as it was read, that is not a
    header; [__init__] returns on it an object whose key is [k] and whose
    quality is [q], with a barcode that is not empty, and the strand of
    the key is [+] or [-]. *)
Theorem index_entries_are_records (args : Args) (umi_list : list string)
    (sam : list string) (st : state) (k : key) (line q : string) :
  inter_sam args umi_list initial_state sam = Ok st ->
  In (k, (line, q)) (place st) ->
  In line (records sam) /\
  exists r,
    sam_info_init args umi_list line = Ok r /\
    key_of r = k /\ self_qual_score r = q /\ self_BC r <> EmptyString /\
    (fst (self_strand r) = "+"%string \/ fst (self_strand r) = "-"%string).
Proof.
  intros H Hin.
  destruct (pass_entries _ _ _ _ _ _ H Hin) as [[] | [Hi (Hh & r & Hr & Hk & Hq & Hb)]].
  simpl in *.
  split.
  - unfold records; apply filter_In; split; [exact Hi |].
    rewrite Hh; reflexivity.
  - exists r; repeat split; auto.
    destruct (sam_info_init_ok _ _ _ _ Hr) as (_ & _ & _ & _ & Hbit & _).
    unfold bit_check in Hbit.
    invert_bind Hbit. invert_bind Hbit. invert_bind Hbit.
    inversion Hbit; simpl.
    destruct (Z.land x0 16 =? 16); auto.
Qed.

Lemma index_entries_are_records_witness :
  In Sample.k1_q40 (records Cases.stream) /\
  exists r,
    sam_info_init Sample.quality_mode [] Sample.k1_q40 = Ok r /\
    key_of r = Sample.K1 /\ self_qual_score r = "40"%string /\
    self_BC r <> EmptyString /\
    (fst (self_strand r) = "+"%string \/ fst (self_strand r) = "-"%string).
Proof.
  apply (index_entries_are_records Sample.quality_mode [] Cases.stream
           Cases.after_stream_quality Sample.K1 Sample.k1_q40 "40"%string).
  - vm_compute; reflexivity.
  - vm_compute; left; reflexivity.
Defined.

(** X6. With tag validation on, the tag of every key stored by a
    completed pass is an element of [umi_list]. *)
Theorem validated_keys_are_known (args : Args) (umi_list : list string)
    (sam : list string) (st : state) (k : key) (v : entry) :
  umi args = true ->
  inter_sam args umi_list initial_state sam = Ok st ->
  In (k, v) (place st) ->
  In (fst (fst (fst k))) umi_list.
Proof.
  intros Hu H Hin.
  destruct (pass_entries _ _ _ _ _ _ H Hin)
    as [[] | [_ (_ & r & Hr & Hk & _ & Hb)]].
  simpl in Hr, Hk.
  destruct (sam_info_init_ok _ _ _ _ Hr) as (_ & _ & _ & _ & _ & Hbc).
  destruct (barcode_get_ok _ _ _ _ Hbc) as (tag & _ & HBC).
  rewrite Hu in HBC.
  subst k; simpl.
  destruct (existsb (String.eqb tag) umi_list) eqn:E; [| contradiction].
  rewrite HBC; apply existsb_eqb_In; exact E.
Qed.

Lemma validated_keys_are_known_witness :
  In (fst (fst (fst ("AACCCG"%string, 100, "+"%string, "chr1"%string))))
    Sample.known_tags.
Proof.
  apply (validated_keys_are_known Sample.umi_mode Sample.known_tags
           [Sample.known_tag; Sample.unknown_tag] Cases.after_umi_stream
           ("AACCCG"%string, 100, "+"%string, "chr1"%string)
           (Sample.known_tag, "30"%string)).
  - reflexivity.
  - vm_compute; reflexivity.
  - vm_compute; left; reflexivity.
Defined.

(** ** Running the program on its own output *)

Lemma pass_headers_only (args : Args) (umi_list : list string)
    (hs : list string) (st : state) :
  Forall (fun l => is_header l = true) hs ->
  exists st',
    inter_sam args umi_list st hs = Ok st' /\
    dedup st' = dedup st ++ hs /\ place st' = place st /\
    NR st' = NR st /\ UnMap st' = UnMap st /\ badBc st' = badBc st /\
    peRemo st' = peRemo st /\ tot st' = tot st.
Proof.
  intros H; revert st; induction H as [| h hs Hh _ IH]; intros st.
  - exists st; simpl; rewrite app_nil_r; repeat split.
  - simpl; unfold inter_sam_line; unfold is_header in Hh; rewrite Hh; simpl.
    destruct (IH (write st [h])) as (st' & -> & Hd & Hp & Hn & Hu & Hb & Hpe & Ht).
    exists st'; split; [reflexivity |].
    rewrite Hd; simpl; rewrite <- app_assoc; repeat split; assumption.
Qed.

(** The pass over the lines kept in a dictionary builds that dictionary
    again. *)
Lemma pass_rebuilds (args : Args) (umi_list : list string) (d d0 : dict)
    (st : state) :
  Forall (entry_ok args umi_list) d ->
  NoDup (dict_keys (d0 ++ d)) ->
  place st = d0 ->
  exists st',
    inter_sam args umi_list st (map (fun e => fst (snd e)) d) = Ok st' /\
    place st' = d0 ++ d /\ dedup st' = dedup st /\
    NR st' = NR st + Z.of_nat (List.length d) /\
    UnMap st' = UnMap st /\ badBc st' = badBc st /\
    peRemo st' = peRemo st /\ tot st' = tot st.
Proof.
  intros H; revert d0 st; induction H as [| e d He _ IH]; intros d0 st ND Hp.
  - exists st; simpl; rewrite app_nil_r; repeat split; auto; lia.
  - destruct e as [k [line q]].
    destruct He as (Hh & r & Hr & Hk & Hq & Hb); simpl in Hh, Hr, Hk, Hq.
    assert (Hnone : dict_get (key_of r) (place st) = None).
    { rewrite Hp, Hk; apply dict_get_in.
      unfold dict_keys in ND; rewrite map_app in ND; simpl in ND.
      apply NoDup_remove_2 in ND.
      intros Hin; apply ND; apply in_or_app; left; exact Hin. }
    cbn [map inter_sam fst snd].
    rewrite (step_record _ _ _ _ _ Hh Hr Hb), Hnone.
    rewrite (dict_set_absent _ _ _ Hnone), Hp, Hk, Hq; cbn [bind].
    assert (ND' : NoDup (dict_keys ((d0 ++ [(k, (line, q))]) ++ d))).
    { rewrite <- app_assoc; exact ND. }
    destruct (IH (d0 ++ [(k, (line, q))])
                (set_place (incr_NR st) (d0 ++ [(k, (line, q))]))
                ND' eq_refl)
      as (st' & Hst & Hpl & Hd & Hn & Hu & Hbb & Hpe & Ht).
    exists st'; split; [exact Hst |].
    rewrite Hpl, <- app_assoc, Hd, Hn, Hu, Hbb, Hpe, Ht; simpl.
    repeat split; lia.
Qed.

Lemma headers_are_headers (sam : list string) :
  Forall (fun l => is_header l = true) (headers sam).
Proof.
  apply Forall_forall; intros l Hin.
  unfold headers in Hin; apply filter_In in Hin; tauto.
Qed.

(** A second run on the texts that a finished single-end run wrote,
    taken as the lines of its input. *)
Lemma rerun_on_written_lines (args : Args) (umi_list : list string)
    (sam : list string) (st : state) :
  pe args = false ->
  main args umi_list sam = (st, Finished) ->
  exists st2,
    main args umi_list (dedup st) = (st2, Finished) /\
    dedup st2 = dedup st /\ place st2 = place st /\
    duplicates_removed st2 = 0 /\ total_unidentified st2 = 0.
Proof.
  intros Hpe H; unfold main in H.
  destruct (inter_sam args umi_list initial_state sam) as [s1 | e] eqn:E;
    [| discriminate].
  rewrite Hpe in H; simpl in H; inversion H; subst st; clear H.
  destruct (pass_effect _ _ _ _ _ E) as (Hd1 & _).
  simpl in Hd1.
  assert (Hok : Forall (entry_ok args umi_list) (place s1)).
  { apply Forall_forall; intros e0 Hin.
    destruct (pass_entries _ _ _ _ _ _ E Hin) as [[] | [_ Hok]]; exact Hok. }
  assert (ND : NoDup (dict_keys ([] ++ place s1))).
  { simpl; eapply pass_NoDup; [exact E | constructor]. }
  destruct (pass_headers_only args umi_list (headers sam) initial_state
              (headers_are_headers sam))
    as (sh & Hsh & Hdh & Hph & Hnh & Huh & Hbh & Hpeh & Hth).
  destruct (pass_rebuilds args umi_list (place s1) [] sh Hok ND Hph)
    as (sr & Hsr & Hpr & Hdr & Hnr & Hur & Hbr & Hper & Htr).
  assert (Hlines : dedup (add_tot (single_write s1)) =
                   headers sam ++ map (fun e => fst (snd e)) (place s1)).
  { simpl; rewrite Hd1; unfold dict_values; rewrite map_map; reflexivity. }
  exists (add_tot (single_write sr)); split.
  - unfold main; rewrite Hlines, pass_app, Hsh; simpl; rewrite Hsr, Hpe.
    reflexivity.
  - rewrite Hlines; simpl in *.
    rewrite Hpr, Hdr, Hdh; simpl.
    unfold dict_values; rewrite map_map.
    unfold duplicates_removed, total_unidentified; simpl.
    rewrite Hpr, Hnr, Hur, Hbr, Htr, Hnh, Huh, Hbh, Hth; simpl.
    repeat split; lia.
Qed.

Lemma read_lines_line (l rest : string) :
  is_line l = true -> read_lines (l ++ rest)%string = l :: read_lines rest.
Proof.
  induction l as [| c l IH]; [discriminate |].
  destruct l as [| d l'].
  - simpl; intros H; apply Ascii.eqb_eq in H; subst c; reflexivity.
  - intros H.
    change (is_line (String c (String d l')))
      with (negb (Ascii.eqb c Py.NL) && negb (Ascii.eqb c CR) &&
            is_line (String d l')) in H.
    apply andb_true_iff in H; destruct H as [H Hl].
    apply andb_true_iff in H; destruct H as [Hn Hc].
    apply negb_true_iff in Hn, Hc.
    change ((String c (String d l') ++ rest)%string)
      with (String c (String d l' ++ rest)%string).
    cbn [read_lines]; rewrite Hn, Hc, (IH Hl); reflexivity.
Qed.

(** Reading back a file made of whole lines gives these lines. *)
Lemma read_lines_file_text (ls : list string) :
  Forall (fun l => is_line l = true) ls -> read_lines (file_text ls) = ls.
Proof.
  unfold file_text; induction 1 as [| l ls Hl _ IH]; [reflexivity |].
  assert (Hc : String.concat EmptyString (l :: ls) =
               (l ++ String.concat EmptyString ls)%string).
  { destruct ls as [| l' ls']; simpl; [| reflexivity].
    clear; induction l as [| c l IH]; simpl; [reflexivity |].
    rewrite <- IH; reflexivity. }
  rewrite Hc, (read_lines_line _ _ Hl), IH; reflexivity.
Qed.

(** X7. Single-end deduplication is idempotent on files made of whole
    lines: when every line of the input ends with a newline (and holds no
    other newline and no carriage return) and a single-end run finishes,
    a second run of the program on the file that the first run wrote
    finishes too, writes the same lines in the same order, ends with the
    same dictionary, and reports no duplicate and no unidentified
    barcode. *)
Theorem single_end_idempotent (args : Args) (umi_list : list string)
    (sam : list string) (st : state) :
  pe args = false ->
  Forall (fun l => is_line l = true) sam ->
  main args umi_list sam = (st, Finished) ->
  exists st2,
    main args umi_list (read_lines (file_text (dedup st))) = (st2, Finished) /\
    dedup st2 = dedup st /\ place st2 = place st /\
    duplicates_removed st2 = 0 /\ total_unidentified st2 = 0.
Proof.
  intros Hpe Hlines H.
  assert (Hin : incl (dedup st) sam).
  { unfold main in H.
    destruct (inter_sam args umi_list initial_state sam) as [s1 | e] eqn:E;
      [| discriminate].
    rewrite Hpe in H; simpl in H; inversion H; subst st; clear H.
    destruct (pass_effect _ _ _ _ _ E) as (Hd & _).
    simpl in Hd; simpl; rewrite Hd.
    intros l Hl; apply in_app_or in Hl; destruct Hl as [Hl | Hl].
    - unfold headers in Hl; apply filter_In in Hl; tauto.
    - unfold dict_values in Hl; rewrite map_map in Hl.
      apply in_map_iff in Hl; destruct Hl as (e0 & <- & Hl).
      destruct (pass_entries _ _ _ _ _ _ E Hl) as [[] | [Hi _]]; exact Hi. }
  rewrite read_lines_file_text.
  - exact (rerun_on_written_lines args umi_list sam st Hpe H).
  - rewrite Forall_forall in *; intros l Hl; apply Hlines, Hin, Hl.
Qed.

Lemma single_end_idempotent_witness :
  exists st2,
    main Sample.quality_mode []
      (read_lines (file_text (dedup Cases.run_stream_quality))) =
      (st2, Finished) /\
    dedup st2 = dedup Cases.run_stream_quality /\
    place st2 = place Cases.run_stream_quality /\
    duplicates_removed st2 = 0 /\ total_unidentified st2 = 0.
Proof.
  apply (single_end_idempotent Sample.quality_mode [] Cases.stream
           Cases.run_stream_quality).
  - reflexivity.
  - repeat constructor.
  - vm_compute; reflexivity.
Defined.

(** ** The record kept under a key *)

Lemma str_lt_asym (a b : string) :
  Py.str_lt a b = true -> Py.str_lt b a = false.
Proof.
  intros H; destruct (Py.str_lt b a) eqn:E; [| reflexivity].
  rewrite <- (str_lt_irrefl a); symmetry; eapply str_lt_trans; eauto.
Qed.

(** X8. Going on with the pass never removes the entry of a key and
    never lowers its quality: the entry a key has after more lines has a
    quality that is not below (as strings) the one it had, and without the
    quality option it is the same entry. *)
Theorem stored_quality_never_decreases (args : Args) (umi_list : list string)
    (sam : list string) (st st' : state) (k : key) (e : entry) :
  inter_sam args umi_list st sam = Ok st' ->
  dict_get k (place st) = Some e ->
  exists e',
    dict_get k (place st') = Some e' /\
    str_ge (snd e') (snd e) = true /\
    (qual args = false -> e' = e).
Proof.
  intros H Hg.
  rewrite (pass_lookup _ _ _ _ _ k H), Hg.
  destruct (keep_some args (colliding args umi_list k sam) e) as [r Hr].
  exists r; split; [exact Hr |].
  destruct (qual args) eqn:Hq.
  - split; [| discriminate].
    destruct (keep_best args _ _ _ Hq Hr) as (before & after & Hs & Hb & _).
    unfold str_ge.
    destruct before as [| b0 before]; simpl in Hs; inversion Hs; subst.
    + rewrite str_lt_irrefl; reflexivity.
    + inversion Hb as [| ? ? Hlt Hrest]; subst.
      rewrite (str_lt_asym _ _ Hlt); reflexivity.
  - rewrite (keep_first args _ _ Hq) in Hr; inversion Hr; subst.
    unfold str_ge; rewrite str_lt_irrefl; auto.
Qed.

Lemma stored_quality_never_decreases_witness :
  exists e',
    dict_get Sample.K1 (place Cases.after_more_lines) = Some e' /\
    str_ge (snd e') (snd (Sample.k1_q30, "30"%string)) = true /\
    (qual Sample.quality_mode = false -> e' = (Sample.k1_q30, "30"%string)).
Proof.
  apply (stored_quality_never_decreases Sample.quality_mode []
           Cases.more_lines Cases.after_k1_q30 Cases.after_more_lines
           Sample.K1 (Sample.k1_q30, "30"%string)).
  - vm_compute; reflexivity.
  - vm_compute; reflexivity.
Defined.

(** ** How far the start position can move *)

Lemma is_digit_val (c : ascii) :
  Py.is_digit c = true -> 0 <= Py.digit_val c <= 9.
Proof.
  unfold Py.is_digit, Py.digit_val; intros H.
  apply andb_true_iff in H; destruct H as [H1 H2].
  apply Nat.leb_le in H1, H2; lia.
Qed.

Lemma digits_bound (s : string) :
  forall (acc : Z) (b : bool) (z : Z),
    0 <= acc ->
    Py.digits acc b s = Some z ->
    acc <= z < (acc + 1) * 10 ^ Z.of_nat (String.length s).
Proof.
  induction s as [| c r IH]; intros acc b z Hacc H; cbn [Py.digits] in H.
  - destruct b; inversion H; subst; simpl; lia.
  - assert (Hpow : 10 ^ Z.of_nat (String.length (String c r)) =
                   10 * 10 ^ Z.of_nat (String.length r)).
    { simpl String.length; rewrite Nat2Z.inj_succ, Z.pow_succ_r; lia. }
    assert (Hpos : 0 < 10 ^ Z.of_nat (String.length r))
      by (apply Z.pow_pos_nonneg; lia).
    rewrite Hpow.
    destruct (Py.is_digit c) eqn:Hd.
    + apply is_digit_val in Hd.
      apply IH in H; [| lia].
      revert Hd H Hpos; generalize (Py.digit_val c).
      generalize (10 ^ Z.of_nat (String.length r)); intros P d Hd H Hpos.
      assert ((10 * acc + d + 1) * P <= (acc + 1) * (10 * P)) by nia.
      lia.
    + destruct (Ascii.eqb c "_"); [| discriminate].
      destruct b; [| discriminate].
      apply IH in H; [| lia].
      revert H Hpos; generalize (10 ^ Z.of_nat (String.length r)).
      intros P H Hpos.
      assert ((acc + 1) * P <= (acc + 1) * (10 * P)) by nia.
      lia.
Qed.

Lemma lstrip_length (s : string) :
  (String.length (Py.lstrip s) <= String.length s)%nat.
Proof.
  induction s as [| c r IH]; simpl; [lia |].
  destruct (Py.is_int_space c); simpl; lia.
Qed.

Lemma rstrip_length (s : string) :
  (String.length (Py.rstrip s) <= String.length s)%nat.
Proof.
  induction s as [| c r IH]; simpl; [lia |].
  destruct (Py.rstrip r); [destruct (Py.is_int_space c) |]; simpl in *; lia.
Qed.

(** A string that [int()] accepts holds the digits of the result, or of
    its opposite. *)
Lemma int_of_str_digits (s : string) (z : Z) :
  Py.int_of_str s = Ok z ->
  exists r,
    (String.length r <= String.length s)%nat /\
    (Py.digits 0 false r = Some z \/ Py.digits 0 false r = Some (- z)).
Proof.
  unfold Py.int_of_str.
  assert (Hlen : (String.length (Py.rstrip (Py.lstrip s)) <= String.length s)%nat).
  { etransitivity; [apply rstrip_length | apply lstrip_length]. }
  revert Hlen; generalize (Py.rstrip (Py.lstrip s)); intros t Hlen H.
  destruct t as [| c r]; [discriminate |].
  assert (Hr : (String.length r <= String.length s)%nat) by (simpl in Hlen; lia).
  destruct c as [[] [] [] [] [] [] [] []]; cbv beta iota zeta in H;
    match type of H with
    | match option_map _ ?X with _ => _ end = _ =>
        destruct X as [z0 |] eqn:E; simpl in H; inversion H; subst;
        exists r; split; [exact Hr | right; rewrite Z.opp_involutive; exact E]
    | match Py.digits 0 false r with _ => _ end = _ =>
        destruct (Py.digits 0 false r) as [z0 |] eqn:E; inversion H; subst;
        exists r; split; [exact Hr | left; exact E]
    | match ?X with _ => _ end = _ =>
        destruct X as [z0 |] eqn:E; inversion H; subst;
        eexists; split; [exact Hlen | left; exact E]
    end.
Qed.

Lemma int_of_str_bound (s : string) (z : Z) :
  Py.int_of_str s = Ok z -> Z.abs z < 10 ^ Z.of_nat (String.length s).
Proof.
  intros H; destruct (int_of_str_digits s z H) as (r & Hlen & Hd).
  assert (Hmono : 10 ^ Z.of_nat (String.length r) <=
                  10 ^ Z.of_nat (String.length s))
    by (apply Z.pow_le_mono_r; lia).
  destruct Hd as [Hd | Hd]; apply digits_bound in Hd; lia.
Qed.

Lemma substring_length (n : nat) (s : string) :
  (String.length (substring 0 n s) <= n)%nat.
Proof.
  revert s; induction n as [| n IH]; intros [| c r]; simpl; try lia.
  specialize (IH r); lia.
Qed.

Lemma soft_check_bound (align : string) (k : Z) :
  soft_check align = Ok k -> -100 < k < 100.
Proof.
  unfold soft_check; intros H.
  invert_bind H. invert_bind Hx.
  destruct (Ascii.eqb x0 "S").
  - invert_bind Hx; inversion Hx; subst x; simpl in H.
    apply int_of_str_bound in H; simpl in H; lia.
  - invert_bind Hx.
    destruct (Ascii.eqb x1 "S"); inversion Hx; subst x; simpl in H.
    + apply int_of_str_bound in H.
      assert (Hl := substring_length 2 align); unfold Py.slice_to in H.
      assert (Hmono : 10 ^ Z.of_nat (String.length (substring 0 2 align)) <=
                      10 ^ 2) by (apply Z.pow_le_mono_r; lia).
      lia.
    + inversion H; lia.
Qed.

(** X9. When [start_pos] returns, field 4 of the line is an integer
    [pos] and the result lies between [pos - 99] and [pos]: the soft clip
    never raises the position and never lowers it by more than 99. *)
Theorem start_pos_within_99 (line : string) (p : Z) :
  start_pos line = Ok p ->
  exists f3 pos,
    Py.item (fields line) 3 = Ok f3 /\ Py.int_of_str f3 = Ok pos /\
    pos - 99 <= p <= pos.
Proof.
  unfold start_pos; intros H.
  invert_bind H. rename x into f3, Hx into H3.
  invert_bind H. rename x into pos, Hx into Hpos.
  invert_bind H. rename x into align, Hx into H5.
  invert_bind H. rename x into soft, Hx into Hs.
  exists f3, pos; split; [exact H3 |]; split; [exact Hpos |].
  apply soft_check_bound in Hs.
  inversion H; subst p.
  destruct (0 <? soft) eqn:E; [apply Z.ltb_lt in E | apply Z.ltb_ge in E]; lia.
Qed.

Lemma start_pos_within_99_witness :
  exists f3 pos,
    Py.item (fields Sample.clipped_5) 3 = Ok f3 /\
    Py.int_of_str f3 = Ok pos /\ pos - 99 <= 95 <= pos.
Proof.
  apply (start_pos_within_99 Sample.clipped_5 95).
  vm_compute; reflexivity.
Defined.

(** ** Records without a tag *)

(** X10. A record whose read name gives an empty tag (the first word of
    the line ends with a colon) is counted as an unidentified barcode and
    leaves the dictionary alone, with tag validation on or off and
    whatever [umi_list] holds, the empty string included. *)
Theorem empty_tag_is_unidentified (args : Args) (umi_list : list string)
    (st : state) (line : string) (r : sam_info) :
  is_header line = false ->
  sam_info_init args umi_list line = Ok r ->
  raw_tag line = Ok EmptyString ->
  inter_sam_line args umi_list st line = Ok (incr_badBc (incr_NR st)).
Proof.
  intros Hh Hinit Htag.
  destruct (sam_info_init_ok _ _ _ _ Hinit) as (_ & _ & _ & _ & _ & Hbc).
  destruct (barcode_get_ok _ _ _ _ Hbc) as (tag & Ht & HBC).
  rewrite Htag in Ht; inversion Ht; subst tag.
  assert (Hempty : self_BC r = EmptyString).
  { rewrite HBC; destruct (umi args);
      [destruct (existsb (String.eqb EmptyString) umi_list) |]; reflexivity. }
  unfold inter_sam_line; unfold is_header in Hh; rewrite Hh, Hinit; simpl.
  rewrite (sam_info_init_usable _ _ _ _ Hinit), Hempty; reflexivity.
Qed.

Lemma empty_tag_is_unidentified_witness :
  inter_sam_line Sample.umi_mode [EmptyString; "AACCCG"%string] initial_state
    Cases.empty_tag = Ok (incr_badBc (incr_NR initial_state)).
Proof.
  apply (empty_tag_is_unidentified Sample.umi_mode
           [EmptyString; "AACCCG"%string] initial_state Cases.empty_tag
           (Sample.info_of Sample.umi_mode [EmptyString; "AACCCG"%string]
              Cases.empty_tag)).
  - reflexivity.
  - vm_compute; reflexivity.
  - vm_compute; reflexivity.
Defined.

(** ** The single-end run *)

Lemma first_occurrences_length (ks acc : list key) :
  (List.length (first_occurrences acc ks) <= List.length acc + List.length ks)%nat.
Proof.
  revert acc; induction ks as [| k ks IH]; intros acc; simpl; [lia |].
  unfold first_occurrences in *; simpl.
  destruct (seen k acc).
  - specialize (IH acc); lia.
  - specialize (IH (acc ++ [k])); rewrite length_app in IH; simpl in IH; lia.
Qed.

Lemma arrivals_length (args : Args) (umi_list : list string)
    (sam : list string) :
  (List.length (arrivals args umi_list sam) <= List.length (records sam))%nat.
Proof.
  induction sam as [| line rest IH]; simpl; [lia |].
  unfold records in *; simpl.
  destruct (is_header line); simpl; [exact IH |].
  destruct (sam_info_init args umi_list line) as [r | e]; [| lia].
  destruct (usable r); simpl; lia.
Qed.

Lemma headers_records_length (sam : list string) :
  (List.length (headers sam) + List.length (records sam))%nat = List.length sam.
Proof.
  induction sam as [| line rest IH]; simpl; [reflexivity |].
  unfold headers, records in *; simpl.
  destruct (is_header line); simpl; lia.
Qed.

(** X11. The figures of the summary of a finished single-end run: the
    reads processed are the lines that are not headers; the reads retained
    are the distinct keys of the records that reached the dictionary; the
    count of unmapped reads is 0; and the duplicates removed are the
    unidentified barcodes plus the records that arrived on a key already
    present, so that every read without a known tag is reported as a
    removed duplicate. *)
Theorem single_end_summary (args : Args) (umi_list : list string)
    (sam : list string) (st : state) :
  pe args = false ->
  main args umi_list sam = (st, Finished) ->
  total_processed st = Z.of_nat (List.length (records sam)) /\
  reads_retained args st =
    Z.of_nat (List.length (first_occurrences [] (arrivals args umi_list sam))) /\
  total_unmapped st = 0 /\
  duplicates_removed st =
    total_unidentified st +
    (Z.of_nat (List.length (arrivals args umi_list sam)) -
     Z.of_nat (List.length (first_occurrences [] (arrivals args umi_list sam)))) /\
  total_unidentified st <= duplicates_removed st.
Proof.
  intros Hpe H; unfold main in H.
  destruct (inter_sam args umi_list initial_state sam) as [s1 | e] eqn:E;
    [| discriminate].
  rewrite Hpe in H; simpl in H; inversion H; subst st; clear H.
  destruct (pass_effect _ _ _ _ _ E) as (_ & Hn & _ & Ht).
  destruct (pass_keys _ _ _ _ _ E) as (Hk & Hc).
  change (dict_keys (place initial_state)) with (@nil key) in Hk.
  assert (Hu := pass_UnMap _ _ _ _ _ E).
  assert (Hlen : List.length (place s1) =
                 List.length (first_occurrences [] (arrivals args umi_list sam))).
  { rewrite <- Hk; unfold dict_keys; rewrite length_map; reflexivity. }
  assert (Hle := first_occurrences_length (arrivals args umi_list sam) []).
  unfold total_processed, reads_retained, total_unmapped, duplicates_removed,
    total_unidentified; rewrite Hpe; simpl in *.
  rewrite Hlen, Ht, Hu, Hn.
  repeat split; lia.
Qed.

Lemma single_end_summary_witness :
  total_processed Cases.run_stream_quality =
    Z.of_nat (List.length (records Cases.stream)) /\
  reads_retained Sample.quality_mode Cases.run_stream_quality =
    Z.of_nat (List.length (first_occurrences []
                             (arrivals Sample.quality_mode [] Cases.stream))) /\
  total_unmapped Cases.run_stream_quality = 0 /\
  duplicates_removed Cases.run_stream_quality =
    total_unidentified Cases.run_stream_quality +
    (Z.of_nat (List.length (arrivals Sample.quality_mode [] Cases.stream)) -
     Z.of_nat (List.length (first_occurrences []
                              (arrivals Sample.quality_mode [] Cases.stream)))) /\
  total_unidentified Cases.run_stream_quality <=
    duplicates_removed Cases.run_stream_quality.
Proof.
  apply (single_end_summary Sample.quality_mode [] Cases.stream
           Cases.run_stream_quality).
  - reflexivity.
  - vm_compute; reflexivity.
Defined.

(** X12. The file written by a finished single-end run holds the header
    lines of the input, in their order, followed by the line of every
    entry of the dictionary, once each and in the order of the keys; every
    line written is a line of the input, unchanged, and the output is not
    longer than the input. *)
Theorem single_end_output (args : Args) (umi_list : list string)
    (sam : list string) (st : state) :
  pe args = false ->
  main args umi_list sam = (st, Finished) ->
  dedup st = headers sam ++ map fst (dict_values (place st)) /\
  NoDup (dict_keys (place st)) /\
  incl (dedup st) sam /\
  (List.length (dedup st) <= List.length sam)%nat.
Proof.
  intros Hpe H; unfold main in H.
  destruct (inter_sam args umi_list initial_state sam) as [s1 | e] eqn:E;
    [| discriminate].
  rewrite Hpe in H; simpl in H; inversion H; subst st; clear H.
  destruct (pass_effect _ _ _ _ _ E) as (Hd & _).
  destruct (pass_keys _ _ _ _ _ E) as (Hk & _).
  change (dict_keys (place initial_state)) with (@nil key) in Hk.
  simpl in Hd; simpl.
  rewrite Hd.
  split; [reflexivity |].
  split; [eapply pass_NoDup; [exact E | constructor] |].
  split.
  - intros l Hin; apply in_app_or in Hin; destruct Hin as [Hin | Hin].
    + unfold headers in Hin; apply filter_In in Hin; tauto.
    + unfold dict_values in Hin; rewrite map_map in Hin.
      apply in_map_iff in Hin; destruct Hin as (e0 & <- & Hin).
      destruct (pass_entries _ _ _ _ _ _ E Hin) as [[] | [Hi _]]; exact Hi.
  - rewrite length_app, length_map; unfold dict_values; rewrite length_map.
    assert (Hlen : List.length (place s1) =
                   List.length (first_occurrences [] (arrivals args umi_list sam))).
    { rewrite <- Hk; unfold dict_keys; rewrite length_map; reflexivity. }
    assert (H1 := first_occurrences_length (arrivals args umi_list sam) []).
    assert (H2 := arrivals_length args umi_list sam).
    assert (H3 := headers_records_length sam).
    simpl in H1; lia.
Qed.

Lemma single_end_output_witness :
  dedup Cases.run_stream_quality =
    headers Cases.stream ++
    map fst (dict_values (place Cases.run_stream_quality)) /\
  NoDup (dict_keys (place Cases.run_stream_quality)) /\
  incl (dedup Cases.run_stream_quality) Cases.stream /\
  (List.length (dedup Cases.run_stream_quality) <= List.length Cases.stream)%nat.
Proof.
  apply (single_end_output Sample.quality_mode [] Cases.stream
           Cases.run_stream_quality).
  - reflexivity.
  - vm_compute; reflexivity.
Defined.

(** ** The paired-end run *)

Lemma pair_write_walk (st : state) :
  pair_write st =
  walk_pairs (Py.sorted Py.pair_lt (dict_values (place st))) st.
Proof.
  unfold pair_write.
  set (vals := Py.sorted Py.pair_lt (dict_values (place st))).
  assert (Hlen : List.length (place st) = List.length vals).
  { unfold vals; rewrite sorted_length; unfold dict_values;
      rewrite length_map; reflexivity. }
  rewrite Hlen.
  apply (pair_loop_walk (List.length vals) vals 0 st).
  apply Nat.le_sub_l.
Qed.

Lemma insert_sorted_in {A : Type} (lt : A -> A -> bool) (a x : A)
    (l : list A) :
  In x (Py.insert_sorted lt a l) -> x = a \/ In x l.
Proof.
  induction l as [| y t IH]; simpl.
  - intros [H | []]; auto.
  - destruct (lt a y); simpl; intros [H | H]; auto.
    destruct (IH H); auto.
Qed.

Lemma sorted_in {A : Type} (lt : A -> A -> bool) (x : A) (l : list A) :
  In x (Py.sorted lt l) -> In x l.
Proof.
  unfold Py.sorted.
  assert (H : forall acc,
             In x (fold_left (fun acc a => Py.insert_sorted lt a acc) l acc) ->
             In x acc \/ In x l).
  { induction l as [| a t IH]; intros acc Hin; simpl in *; [auto |].
    destruct (IH _ Hin) as [H | H]; [| auto].
    apply insert_sorted_in in H; destruct H; auto. }
  intros Hin; destruct (H [] Hin) as [[] | ?]; assumption.
Qed.

(** The walk writes lines of the values it is given, not more of them
    than there are values, and counts them in [peRemo]; it changes
    nothing else. *)
Lemma walk_pairs_lines (n : nat) (vals : list entry) (st st' : state)
    (o : outcome) :
  (List.length vals <= n)%nat ->
  walk_pairs vals st = (st', o) ->
  exists out,
    dedup st' = dedup st ++ out /\
    incl out (map fst vals) /\
    (List.length out <= List.length vals)%nat /\
    peRemo st' = peRemo st + Z.of_nat (List.length out) /\
    place st' = place st /\ NR st' = NR st /\ UnMap st' = UnMap st /\
    badBc st' = badBc st /\ tot st' = tot st.
Proof.
  revert vals st; induction n as [| n IH]; intros vals st Hlen H.
  - destruct vals; [| simpl in Hlen; lia].
    inversion H; subst.
    exists []; rewrite app_nil_r; simpl; repeat split;
      [apply incl_nil_l | lia | lia].
  - destruct vals as [| a [| b rest]];
      try (inversion H; subst;
           exists []; rewrite app_nil_r; simpl; repeat split;
           [apply incl_nil_l | lia | lia]).
    rewrite walk_pairs_cons in H.
    destruct (pair_test [a; b]) as [[[a' b'] t] | e] eqn:Et.
    + destruct t.
      * apply IH in H; [| simpl in Hlen; lia].
        destruct H as (out & Hd & Hi & Hl & Hpe & Hpl & Hn & Hu & Hb & Ht).
        exists (fst a :: fst b :: out); simpl in *.
        rewrite Hd, <- app_assoc; simpl.
        repeat split; try assumption; try lia.
        intros x [<- | [<- | Hx]]; simpl; auto.
      * apply IH in H; [| simpl in Hlen; simpl; lia].
        destruct H as (out & Hd & Hi & Hl & Hrest).
        exists out; repeat split; try tauto.
        -- intros x Hx; right; apply Hi; exact Hx.
        -- simpl in *; lia.
    + inversion H; subst.
      exists []; rewrite app_nil_r; simpl; repeat split;
        [apply incl_nil_l | lia | lia].
Qed.

(** X13. When the pass completes, the paired-end run never runs out of
    fuel. After the header lines of the input it writes lines kept in the
    dictionary only, each a line of the input, and not more of them than
    the dictionary has entries; the dictionary is left as the pass built
    it; the reads reported as retained are the lines written, and when the
    run finishes the count of non paired reads is the number of entries
    less the lines written, which is not negative. *)
Theorem paired_end_output (args : Args) (umi_list : list string)
    (sam : list string) (s1 : state) :
  pe args = true ->
  inter_sam args umi_list initial_state sam = Ok s1 ->
  exists st o out,
    main args umi_list sam = (st, o) /\
    o <> OutOfFuel /\
    dedup st = headers sam ++ out /\
    incl out (map fst (dict_values (place s1))) /\
    incl out sam /\
    (List.length out <= List.length (place s1))%nat /\
    place st = place s1 /\
    reads_retained args st = Z.of_nat (List.length out) /\
    (o = Finished ->
     non_paired st =
       Z.of_nat (List.length (place s1)) - Z.of_nat (List.length out) /\
     0 <= non_paired st).
Proof.
  intros Hpe E.
  destruct (pass_effect _ _ _ _ _ E) as (Hd & _ & Hp0 & Ht0).
  simpl in Hd, Hp0, Ht0.
  unfold main; rewrite E, Hpe; simpl.
  rewrite pair_write_walk.
  destruct (walk_pairs (Py.sorted Py.pair_lt (dict_values (place s1))) s1)
    as [st' o] eqn:W.
  destruct (walk_pairs_emits _ _ _ _ _ (Nat.le_refl _) W) as (Ho & _).
  destruct (walk_pairs_lines _ _ _ _ _ (Nat.le_refl _) W)
    as (out & Hdo & Hi & Hl & Hpe' & Hpl & _ & _ & _ & Ht).
  rewrite sorted_length in Hl; unfold dict_values in Hl at 1;
    rewrite length_map in Hl.
  assert (Hvals : incl out (map fst (dict_values (place s1)))).
  { intros x Hx; apply Hi in Hx.
    apply in_map_iff in Hx; destruct Hx as (v & <- & Hv).
    apply in_map; eapply sorted_in; exact Hv. }
  assert (Hsam : incl out sam).
  { intros x Hx; apply Hvals in Hx.
    unfold dict_values in Hx; rewrite map_map in Hx.
    apply in_map_iff in Hx; destruct Hx as (e0 & <- & Hin).
    destruct (pass_entries _ _ _ _ _ _ E Hin) as [[] | [Hin' _]]; exact Hin'. }
  assert (Hret : forall s, peRemo s = peRemo st' ->
                           reads_retained args s = Z.of_nat (List.length out)).
  { intros s Hs; unfold reads_retained; rewrite Hpe, Hs, Hpe', Hp0; lia. }
  destruct o as [| e |]; [| | congruence].
  - exists (add_tot st'), Finished, out; simpl.
    rewrite Hdo, Hd.
    repeat split; auto; try discriminate;
      unfold non_paired; simpl; rewrite Hpl, Ht, Ht0, Hpe', Hp0; lia.
  - exists st', (Aborted e), out.
    rewrite Hdo, Hd.
    repeat split; auto; discriminate.
Qed.

Lemma paired_end_output_witness :
  exists st o out,
    main Sample.paired_mode [] Cases.paired_stream = (st, o) /\
    o <> OutOfFuel /\
    dedup st = headers Cases.paired_stream ++ out /\
    incl out (map fst (dict_values (place Cases.after_paired_stream))) /\
    incl out Cases.paired_stream /\
    (List.length out <= List.length (place Cases.after_paired_stream))%nat /\
    place st = place Cases.after_paired_stream /\
    reads_retained Sample.paired_mode st = Z.of_nat (List.length out) /\
    (o = Finished ->
     non_paired st =
       Z.of_nat (List.length (place Cases.after_paired_stream)) -
       Z.of_nat (List.length out) /\
     0 <= non_paired st).
Proof.
  apply (paired_end_output Sample.paired_mode [] Cases.paired_stream
           Cases.after_paired_stream).
  - reflexivity.
  - vm_compute; reflexivity.
Defined.

(** X14. Lines of six or seven fields get through the pass but not
    through the paired-end writer: when the pass completes with at least
    two entries and every kept line has fewer than eight tab-separated
    fields, the paired-end run ends with [IndexError] on the first pair it
    examines, having written the header lines only. *)
Theorem paired_end_needs_eight_fields (args : Args) (umi_list : list string)
    (sam : list string) (s1 : state) :
  pe args = true ->
  inter_sam args umi_list initial_state sam = Ok s1 ->
  (2 <= List.length (place s1))%nat ->
  (forall e, In e (place s1) ->
             (List.length (fields (fst (snd e))) < 8)%nat) ->
  main args umi_list sam = (s1, Aborted IndexError) /\
  dedup s1 = headers sam.
Proof.
  intros Hpe E Hlen Hshort.
  destruct (pass_effect _ _ _ _ _ E) as (Hd & _).
  split; [| exact Hd].
  unfold main; rewrite E, Hpe; simpl.
  rewrite pair_write_walk.
  assert (Hsl := sorted_length Py.pair_lt (dict_values (place s1))).
  unfold dict_values in Hsl at 2; rewrite length_map in Hsl.
  destruct (Py.sorted Py.pair_lt (dict_values (place s1)))
    as [| a [| b rest]] eqn:Es; simpl in Hsl; try lia.
  assert (Hin : forall v, In v [a; b] ->
                          exists k, In (k, v) (place s1)).
  { intros v Hv.
    assert (Hv' : In v (Py.sorted Py.pair_lt (dict_values (place s1)))).
    { rewrite Es; destruct Hv as [<- | [<- | []]]; simpl; auto. }
    apply sorted_in in Hv'; unfold dict_values in Hv'.
    apply in_map_iff in Hv'; destruct Hv' as ([k v0] & <- & Hk).
    exists k; exact Hk. }
  destruct (Hin a (or_introl eq_refl)) as (ka & Ha).
  destruct (Hin b (or_intror (or_introl eq_refl))) as (kb & Hb).
  destruct (pass_entries _ _ _ _ _ _ E Ha) as [[] | [_ (_ & r & Hr & _)]].
  simpl in Hr.
  destruct (sam_info_init_ok _ _ _ _ Hr) as (_ & _ & Hsp & _).
  unfold start_pos in Hsp; invert_bind Hsp.
  rewrite walk_pairs_cons.
  unfold pair_test; cbn [Py.item nth_error bind].
  fold (Py.item (fields (fst a)) 3); rewrite Hx; cbn [bind].
  fold (Py.item (fields (fst b)) 7).
  rewrite (item_short (fields (fst b)) 7); [reflexivity |].
  specialize (Hshort _ Hb); simpl in Hshort; lia.
Qed.

Lemma paired_end_needs_eight_fields_witness :
  main Sample.paired_mode [] [Cases.six_fields_a; Cases.six_fields_b] =
    (Cases.after_six_fields, Aborted IndexError) /\
  dedup Cases.after_six_fields =
    headers [Cases.six_fields_a; Cases.six_fields_b].
Proof.
  apply (paired_end_needs_eight_fields Sample.paired_mode []
           [Cases.six_fields_a; Cases.six_fields_b] Cases.after_six_fields).
  - reflexivity.
  - vm_compute; reflexivity.
  - vm_compute; lia.
  - intros e He; vm_compute in He.
    destruct He as [<- | [<- | []]]; vm_compute; lia.
Defined.

(** ** Streams without records, lists without tags *)

(** X15. On a stream made of header lines only, the empty stream
    included, the run finishes in both modes, copies the stream to the
    output as it is, keeps the dictionary empty and reports zero reads
    processed, retained and removed. *)
Theorem header_only_run (args : Args) (umi_list : list string)
    (sam : list string) :
  Forall (fun l => is_header l = true) sam ->
  exists st,
    main args umi_list sam = (st, Finished) /\
    dedup st = sam /\ place st = [] /\
    total_processed st = 0 /\ total_unidentified st = 0 /\
    reads_retained args st = 0 /\ duplicates_removed st = 0.
Proof.
  intros H.
  destruct (pass_headers_only args umi_list sam initial_state H)
    as (s1 & Hs & Hd & Hp & Hn & Hu & Hb & Hpe & Ht).
  simpl in Hd, Hp, Hn, Hu, Hb, Hpe, Ht.
  unfold main; rewrite Hs.
  destruct (pe args) eqn:Epe; simpl.
  - unfold pair_write; rewrite Hp; simpl.
    exists (add_tot s1); split; [reflexivity |].
    unfold total_processed, total_unidentified, reads_retained,
      duplicates_removed; rewrite Epe; simpl.
    rewrite Hd, Hp, Hn, Hu, Hb, Hpe, Ht; simpl; repeat split.
  - exists (add_tot (single_write s1)); split; [reflexivity |].
    unfold total_processed, total_unidentified, reads_retained,
      duplicates_removed; rewrite Epe; simpl.
    rewrite Hd, Hp, Hn, Hu, Hb, Ht; simpl; rewrite app_nil_r; repeat split.
Qed.

Lemma header_only_run_witness :
  exists st,
    main Sample.paired_mode [] [Cases.hd_line; Cases.sq_line] =
      (st, Finished) /\
    dedup st = [Cases.hd_line; Cases.sq_line] /\ place st = [] /\
    total_processed st = 0 /\ total_unidentified st = 0 /\
    reads_retained Sample.paired_mode st = 0 /\ duplicates_removed st = 0.
Proof.
  apply (header_only_run Sample.paired_mode [] [Cases.hd_line; Cases.sq_line]).
  repeat constructor.
Defined.

(** X16. With tag validation on and an empty list of known tags, a
    completed pass stores nothing: the dictionary is left as it was, and
    every line counted by [NR] is counted by [badBc] too. *)
Theorem validation_without_tags (args : Args) (sam : list string)
    (st st' : state) :
  umi args = true ->
  inter_sam args [] st sam = Ok st' ->
  place st' = place st /\ badBc st' - badBc st = NR st' - NR st.
Proof.
  intros Hu; revert st; induction sam as [| line rest IH]; intros st H.
  - inversion H; subst; split; [reflexivity | lia].
  - simpl in H; invert_bind H.
    destruct (IH _ H) as (Hp & Hc).
    apply step_inv in Hx.
    destruct Hx as [[Hh ->] | [Hh (r & Hinit & [(Hbc & _ & ->) | (Hbc & _)])]].
    + simpl in *; split; [exact Hp | lia].
    + simpl in *; split; [exact Hp | lia].
    + exfalso; apply Hbc.
      destruct (sam_info_init_ok _ _ _ _ Hinit) as (_ & _ & _ & _ & _ & Hb).
      destruct (barcode_get_ok _ _ _ _ Hb) as (tag & _ & ->).
      rewrite Hu; reflexivity.
Qed.

Lemma validation_without_tags_witness :
  place (Sample.state_after Sample.umi_mode [] Cases.stream) =
    place initial_state /\
  badBc (Sample.state_after Sample.umi_mode [] Cases.stream) -
    badBc initial_state =
  NR (Sample.state_after Sample.umi_mode [] Cases.stream) - NR initial_state.
Proof.
  apply (validation_without_tags Sample.umi_mode Cases.stream initial_state
           (Sample.state_after Sample.umi_mode [] Cases.stream)).
  - reflexivity.
  - vm_compute; reflexivity.
Defined.

(** ** The characters of a tag *)

Lemma item_in {A : Type} (l : list A) (i : nat) (a : A) :
  Py.item l i = Ok a -> In a l.
Proof.
  unfold Py.item; destruct (nth_error l i) eqn:E; [| discriminate].
  intros H; inversion H; subst; eapply nth_error_In; eauto.
Qed.

Lemma item_last_in {A : Type} (l : list A) (a : A) :
  Py.item_last l = Ok a -> In a l.
Proof.
  unfold Py.item_last; destruct (rev l) eqn:E; [discriminate |].
  intros H; inversion H; subst.
  apply in_rev; rewrite E; left; reflexivity.
Qed.

Lemma split_on_chars (sep : ascii) (s x : string) (c : ascii) :
  In x (Py.split_on sep s) -> In c (chars x) -> c <> sep /\ In c (chars s).
Proof.
  revert x; induction s as [| d r IH]; intros x; simpl.
  - intros [<- | []] [].
  - destruct (Ascii.eqb d sep) eqn:E.
    + intros [<- | Hx] Hc; [destruct Hc |].
      destruct (IH _ Hx Hc); auto.
    + destruct (Py.split_on sep r) as [| h t] eqn:Es.
      * intros [<- | []] [<- | []].
        split; [apply Ascii.eqb_neq; exact E | left; reflexivity].
      * intros [<- | Hx] Hc.
        -- destruct Hc as [<- | Hc].
           ++ split; [apply Ascii.eqb_neq; exact E | left; reflexivity].
           ++ destruct (IH h (or_introl eq_refl) Hc); auto.
        -- destruct (IH x (or_intror Hx) Hc); auto.
Qed.

Lemma split_ws_chars (s x : string) (c : ascii) :
  In x (Py.split_ws s) -> In c (chars x) -> Py.is_space c = false.
Proof.
  revert x; induction s as [| d r IH]; intros x; simpl; [intros [] |].
  destruct (Py.is_space d) eqn:Ed; [apply IH |].
  destruct r as [| d' r'].
  - intros [<- | []] [<- | []]; exact Ed.
  - destruct (Py.is_space d') eqn:Ed'.
    + intros [<- | Hx] Hc; [destruct Hc as [<- | []]; exact Ed |].
      eapply IH; eauto.
    + destruct (Py.split_ws (String d' r')) as [| h t] eqn:Es.
      * intros [<- | []] [<- | []]; exact Ed.
      * intros [<- | Hx] Hc.
        -- destruct Hc as [<- | Hc]; [exact Ed |].
           eapply (IH h); [left; reflexivity | exact Hc].
        -- eapply (IH x); [right; exact Hx | exact Hc].
Qed.

Lemma raw_tag_no_space (line tag : string) (c : ascii) :
  raw_tag line = Ok tag -> In c (chars tag) -> Py.is_space c = false.
Proof.
  unfold raw_tag; intros H Hc; invert_bind H.
  apply item_in in Hx; apply item_last_in in H.
  destruct (split_on_chars _ _ _ _ H Hc) as (_ & Hin).
  eapply split_ws_chars; eauto.
Qed.

(** X17. The tag read from the name of a read holds no colon and no
    white space. *)
Theorem tag_has_no_colon_or_space (line tag : string) (c : ascii) :
  raw_tag line = Ok tag ->
  In c (chars tag) ->
  c <> ":"%char /\ Py.is_space c = false.
Proof.
  unfold raw_tag; intros H Hc; invert_bind H.
  apply item_in in Hx; apply item_last_in in H.
  destruct (split_on_chars _ _ _ _ H Hc) as (Hsep & Hin).
  split; [exact Hsep | eapply split_ws_chars; eauto].
Qed.

Lemma tag_has_no_colon_or_space_witness :
  "A"%char <> ":"%char /\ Py.is_space "A"%char = false.
Proof.
  apply (tag_has_no_colon_or_space Sample.k1_q30 "AAGCTC"%string "A"%char).
  - vm_compute; reflexivity.
  - vm_compute; left; reflexivity.
Defined.

(** ** The file of known tags *)

Lemma load_umi_list_map (lines : list string) :
  load_umi_list lines = map str_strip lines.
Proof.
  unfold load_umi_list.
  assert (H : forall acc,
             fold_left (fun umi_list line => umi_list ++ [str_strip line])
               lines acc = acc ++ map str_strip lines).
  { induction lines as [| x t IH]; intros acc; simpl.
    - rewrite app_nil_r; reflexivity.
    - rewrite IH, <- app_assoc; reflexivity. }
  apply (H []).
Qed.

Lemma str_lstrip_spaces (l x : string) :
  forallb Py.is_space (chars l) = true ->
  str_lstrip (l ++ x)%string = str_lstrip x.
Proof.
  induction l as [| c l IH]; simpl; [reflexivity |].
  intros H; apply andb_true_iff in H; destruct H as [Hc Hl].
  rewrite Hc; apply IH; exact Hl.
Qed.

Lemma str_rstrip_spaces (r : string) :
  forallb Py.is_space (chars r) = true -> str_rstrip r = EmptyString.
Proof.
  induction r as [| c r IH]; simpl; [reflexivity |].
  intros H; apply andb_true_iff in H; destruct H as [Hc Hr].
  rewrite (IH Hr), Hc; reflexivity.
Qed.

Lemma str_rstrip_tag (t r : string) :
  (forall c, In c (chars t) -> Py.is_space c = false) ->
  forallb Py.is_space (chars r) = true ->
  str_rstrip (t ++ r)%string = t.
Proof.
  intros Ht Hr; induction t as [| c t IH]; simpl.
  - apply str_rstrip_spaces; exact Hr.
  - rewrite IH by (intros d Hd; apply Ht; right; exact Hd).
    rewrite (Ht c (or_introl eq_refl)).
    destruct t; reflexivity.
Qed.

Lemma str_strip_tag (l t r : string) :
  (forall c, In c (chars t) -> Py.is_space c = false) ->
  forallb Py.is_space (chars l) = true ->
  forallb Py.is_space (chars r) = true ->
  str_strip (l ++ t ++ r)%string = t.
Proof.
  intros Ht Hl Hr; unfold str_strip.
  rewrite (str_lstrip_spaces l _ Hl).
  destruct t as [| c t].
  - simpl.
    assert (H : str_lstrip r = EmptyString).
    { clear - Hr; induction r as [| d r IH]; simpl in *; [reflexivity |].
      apply andb_true_iff in Hr; destruct Hr as [Hd Hr'].
      rewrite Hd; apply IH; exact Hr'. }
    rewrite H; reflexivity.
  - simpl str_lstrip; rewrite (Ht c (or_introl eq_refl)).
    apply (str_rstrip_tag (String c t) r Ht Hr).
Qed.

(** X18. Reading the file of known tags keeps one entry for each line,
    in the order of the file, and the white space around a tag does not
    count: with validation on, a record is given its tag as barcode as
    soon as some line of the file is that tag with white space, the end of
    line included, before and after it. *)
Theorem umi_file_line_matches (args : Args) (file_lines : list string)
    (line tag l r : string) :
  umi args = true ->
  raw_tag line = Ok tag ->
  forallb Py.is_space (chars l) = true ->
  forallb Py.is_space (chars r) = true ->
  In (l ++ tag ++ r)%string file_lines ->
  List.length (load_umi_list file_lines) = List.length file_lines /\
  barcode_get args (load_umi_list file_lines) line = Ok tag.
Proof.
  intros Hu Htag Hl Hr Hin.
  rewrite load_umi_list_map; split; [apply length_map |].
  unfold barcode_get; rewrite Htag; simpl; rewrite Hu.
  assert (Hex : existsb (String.eqb tag) (map str_strip file_lines) = true).
  { apply existsb_eqb_In.
    rewrite <- (str_strip_tag l tag r); [apply in_map; exact Hin | | exact Hl | exact Hr].
    intros c Hc; eapply raw_tag_no_space; eauto. }
  rewrite Hex; reflexivity.
Qed.

Lemma umi_file_line_matches_witness :
  List.length (load_umi_list Cases.umi_file) = List.length Cases.umi_file /\
  barcode_get Sample.umi_mode (load_umi_list Cases.umi_file) Sample.k1_q30 =
    Ok "AAGCTC"%string.
Proof.
  apply (umi_file_line_matches Sample.umi_mode Cases.umi_file Sample.k1_q30
           "AAGCTC"%string " "%string
           (String Py.TAB (String Py.NL EmptyString))).
  - reflexivity.
  - vm_compute; reflexivity.
  - reflexivity.
  - reflexivity.
  - vm_compute; right; left; reflexivity.
Defined.

(** ** The count of unmapped reads *)

(** When the pass completes it stops in the state it returns. *)
Lemma inter_sam_stop_ok (args : Args) (umi_list : list string)
    (sam : list string) (st st' : state) :
  inter_sam args umi_list st sam = Ok st' ->
  inter_sam_stop args umi_list st sam = st'.
Proof.
  revert st; induction sam as [| line rest IH]; intros st H; simpl in *.
  - inversion H; reflexivity.
  - destruct (inter_sam_line args umi_list st line) as [s1 | e];
      [apply IH; exact H | discriminate].
Qed.

(** Wherever the pass stops, [UnMap] is what it was. *)
Lemma inter_sam_stop_UnMap (args : Args) (umi_list : list string)
    (sam : list string) (st : state) :
  UnMap (inter_sam_stop args umi_list st sam) = UnMap st.
Proof.
  revert st; induction sam as [| line rest IH]; intros st; simpl;
    [reflexivity |].
  destruct (inter_sam_line args umi_list st line) as [s1 | e] eqn:E;
    [| reflexivity].
  rewrite IH; eapply step_UnMap; exact E.
Qed.

(** X19. Whatever the input and the options, and however the run ends,
    the count of unmapped or secondary alignments is 0 in the state the
    run ends in, the state at the exception included: the program never
    gets to report such a read. *)
Theorem unmapped_count_is_zero (args : Args) (umi_list : list string)
    (sam : list string) :
  total_unmapped (fst (main args umi_list sam)) = 0 /\
  (forall st, UnMap (inter_sam_stop args umi_list st sam) = UnMap st).
Proof.
  split; [| apply inter_sam_stop_UnMap].
  unfold main, total_unmapped.
  destruct (inter_sam args umi_list initial_state sam) as [s1 | e] eqn:E.
  2:{ simpl; apply (inter_sam_stop_UnMap args umi_list sam initial_state). }
  assert (Hu := pass_UnMap _ _ _ _ _ E); simpl in Hu.
  destruct (pe args); simpl; [| exact Hu].
  rewrite pair_write_walk.
  destruct (walk_pairs (Py.sorted Py.pair_lt (dict_values (place s1))) s1)
    as [st' o] eqn:W.
  destruct (walk_pairs_lines _ _ _ _ _ (Nat.le_refl _) W)
    as (out & _ & _ & _ & _ & _ & _ & Hu' & _).
  destruct o; simpl; lia.
Qed.

(** ** The order of the output without the quality option *)

Lemma subseq_app {A : Type} (a x b y : list A) :
  subseq a x -> subseq b y -> subseq (a ++ b) (x ++ y).
Proof.
  intros H; induction H; simpl; intros Hb;
    [exact Hb | apply subseq_skip; auto | apply subseq_take; auto].
Qed.

Lemma subseq_all_skipped {A : Type} (l : list A) : subseq [] l.
Proof. induction l; [apply subseq_nil | apply subseq_skip; assumption]. Qed.

Lemma records_cons (line : string) (rest : list string) :
  records (line :: rest) = records [line] ++ records rest.
Proof.
  unfold records; simpl; destruct (is_header line); reflexivity.
Qed.

Lemma pass_first_seen_order (args : Args) (umi_list : list string)
    (sam : list string) (st st' : state) :
  qual args = false ->
  inter_sam args umi_list st sam = Ok st' ->
  exists new,
    map fst (dict_values (place st')) =
      map fst (dict_values (place st)) ++ new /\
    subseq new (records sam).
Proof.
  intros Hq; revert st; induction sam as [| line rest IH]; intros st H.
  - inversion H; subst; exists []; rewrite app_nil_r; split;
      [reflexivity | constructor].
  - simpl in H; invert_bind H.
    destruct (IH _ H) as (new & Hn & Hs).
    rewrite records_cons.
    apply step_inv in Hx.
    destruct Hx as [[Hh ->] | [Hh (r & Hinit & [(Hbc & _ & ->) | (Hbc & _ & ->)])]].
    + exists new; split; [exact Hn |].
      unfold records at 1; simpl; rewrite Hh; exact Hs.
    + exists new; split; [exact Hn |].
      unfold records at 1; simpl; rewrite Hh; simpl.
      constructor; exact Hs.
    + unfold records at 1; simpl; rewrite Hh; simpl.
      destruct (dict_get (key_of r) (place st)) as [cur |] eqn:Eg.
      * rewrite Hq in Hn; simpl in Hn.
        exists new; split; [exact Hn | constructor; exact Hs].
      * simpl in Hn; rewrite (dict_set_absent _ _ _ Eg) in Hn.
        unfold dict_values in Hn; rewrite !map_app in Hn; simpl in Hn.
        rewrite <- app_assoc in Hn.
        exists (line :: new); split; [exact Hn | constructor; exact Hs].
Qed.

(** X20. Without the quality option, a finished single-end run writes
    the header lines and then the kept records in the order in which they
    stand in the input: the records written are the records of the input
    with some of them left out. *)
Theorem first_seen_output_in_input_order (args : Args)
    (umi_list : list string) (sam : list string) (st : state) :
  pe args = false ->
  qual args = false ->
  main args umi_list sam = (st, Finished) ->
  exists kept,
    dedup st = headers sam ++ kept /\ subseq kept (records sam).
Proof.
  intros Hpe Hq H; unfold main in H.
  destruct (inter_sam args umi_list initial_state sam) as [s1 | e] eqn:E;
    [| discriminate].
  rewrite Hpe in H; simpl in H; inversion H; subst st; clear H.
  destruct (pass_effect _ _ _ _ _ E) as (Hd & _).
  destruct (pass_first_seen_order _ _ _ _ _ Hq E) as (new & Hn & Hs).
  simpl in Hd, Hn.
  exists new; simpl; rewrite Hd, Hn; split; [reflexivity | exact Hs].
Qed.

Lemma first_seen_output_in_input_order_witness :
  exists kept,
    dedup Cases.run_stream_first = headers Cases.stream ++ kept /\
    subseq kept (records Cases.stream).
Proof.
  apply (first_seen_output_in_input_order Sample.first_seen_mode []
           Cases.stream Cases.run_stream_first).
  - reflexivity.
  - reflexivity.
  - vm_compute; reflexivity.
Defined.

(** ** Which exception ends the pass *)

Lemma bind_raise_inv {A B : Type} (m : result A) (f : A -> result B)
    (e : exn) :
  bind m f = Raise e -> m = Raise e \/ exists a, m = Ok a /\ f a = Raise e.
Proof.
  destruct m as [a | e0]; simpl; intros H;
    [right; eauto | left; inversion H; reflexivity].
Qed.

Lemma item_raise {A : Type} (l : list A) (i : nat) (e : exn) :
  Py.item l i = Raise e -> e = IndexError.
Proof.
  unfold Py.item; destruct (nth_error l i); intros H; inversion H; reflexivity.
Qed.

Lemma char_at_raise (s : string) (i : nat) (e : exn) :
  Py.char_at s i = Raise e -> e = IndexError.
Proof.
  unfold Py.char_at; destruct (String.get i s); intros H; inversion H;
    reflexivity.
Qed.

Lemma int_of_str_raise (s : string) (e : exn) :
  Py.int_of_str s = Raise e -> e = ValueError.
Proof.
  unfold Py.int_of_str.
  match goal with
  | |- match ?X with _ => _ end = _ -> _ => destruct X
  end; intros H; inversion H; reflexivity.
Qed.

(** X21. [soft_check] raises [IndexError] exactly on the CIGAR strings
    of fewer than two characters and on those of two characters with no
    [S] in second place; on every other string it returns or raises
    [ValueError]. *)
Theorem soft_check_index_error_iff (align : string) :
  soft_check align = Raise IndexError <->
  (String.length align <= 1)%nat \/
  (String.length align = 2%nat /\ String.get 1 align <> Some "S"%char).
Proof.
  split.
  - destruct align as [| c0 [| c1 [| c2 t]]]; simpl; try (left; lia).
    + unfold soft_check, Py.char_at; simpl.
      destruct (Ascii.eqb c1 "S") eqn:E; simpl.
      * intros H; apply int_of_str_raise in H; discriminate.
      * intros _; right; split; [reflexivity |].
        apply Ascii.eqb_neq in E; congruence.
    + unfold soft_check, Py.char_at; simpl.
      destruct (Ascii.eqb c1 "S"); simpl;
        [| destruct (Ascii.eqb c2 "S"); simpl];
        intros H; try discriminate;
        apply int_of_str_raise in H; discriminate.
  - intros [H | H].
    + destruct align as [| c0 [| c1 t]]; simpl in H; try lia; reflexivity.
    + apply soft_check_short; right; exact H.
Qed.

Lemma soft_check_raise (align : string) (e : exn) :
  soft_check align = Raise e -> e <> NameError.
Proof.
  unfold soft_check; intros H.
  apply bind_raise_inv in H; destruct H as [H | (v & _ & H)].
  - apply bind_raise_inv in H; destruct H as [H | (c1 & _ & H)].
    + apply char_at_raise in H; subst; discriminate.
    + destruct (Ascii.eqb c1 "S").
      * apply bind_raise_inv in H; destruct H as [H | (c0 & _ & H)];
          [apply char_at_raise in H; subst; discriminate | discriminate].
      * apply bind_raise_inv in H; destruct H as [H | (c2 & _ & H)];
          [apply char_at_raise in H; subst; discriminate |].
        destruct (Ascii.eqb c2 "S"); discriminate.
  - destruct v; simpl in H; [discriminate |].
    apply int_of_str_raise in H; subst; discriminate.
Qed.

Lemma sam_info_init_name_error (args : Args) (umi_list : list string)
    (line : string) :
  sam_info_init args umi_list line = Raise NameError ->
  exists f1 flag,
    Py.item (fields line) 1 = Ok f1 /\ Py.int_of_str f1 = Ok flag /\
    (Z.land flag 4 = 4 \/ Z.land flag 256 = 256).
Proof.
  unfold sam_info_init; intros H.
  apply bind_raise_inv in H; destruct H as [H | (contig & _ & H)];
    [apply item_raise in H; discriminate |].
  apply bind_raise_inv in H; destruct H as [H | (sp & _ & H)].
  { exfalso; unfold start_pos in H.
    apply bind_raise_inv in H; destruct H as [H | (f3 & _ & H)];
      [apply item_raise in H; discriminate |].
    apply bind_raise_inv in H; destruct H as [H | (pos & _ & H)];
      [apply int_of_str_raise in H; discriminate |].
    apply bind_raise_inv in H; destruct H as [H | (al & _ & H)];
      [apply item_raise in H; discriminate |].
    apply bind_raise_inv in H; destruct H as [H | (soft & _ & H)];
      [apply soft_check_raise in H; congruence | discriminate]. }
  apply bind_raise_inv in H; destruct H as [H | (qs & _ & H)];
    [apply item_raise in H; discriminate |].
  apply bind_raise_inv in H; destruct H as [H | (sd & _ & H)].
  - unfold bit_check in H.
    apply bind_raise_inv in H; destruct H as [H | (f1 & H1 & H)];
      [apply item_raise in H; discriminate |].
    apply bind_raise_inv in H; destruct H as [H | (flag & Hf & H)];
      [apply int_of_str_raise in H; discriminate |].
    exists f1, flag; split; [exact H1 |]; split; [exact Hf |].
    destruct (Z.land flag 4 =? 4) eqn:E4; [apply Z.eqb_eq in E4; auto |].
    destruct (Z.land flag 256 =? 256) eqn:E256;
      [apply Z.eqb_eq in E256; auto |].
    simpl in H; discriminate.
  - exfalso.
    apply bind_raise_inv in H; destruct H as [H | (bc & _ & H)];
      [| discriminate].
    unfold barcode_get in H.
    apply bind_raise_inv in H; destruct H as [H | (tag & _ & H)].
    + unfold raw_tag in H.
      apply bind_raise_inv in H; destruct H as [H | (w & _ & H)];
        [apply item_raise in H; discriminate |].
      unfold Py.item_last in H; destruct (rev (Py.split_on ":" w));
        inversion H.
    + destruct (umi args); [| discriminate].
      destruct (existsb (String.eqb tag) umi_list); [discriminate |].
      apply bind_raise_inv in H; destruct H as [H | (h & _ & H)];
        [apply item_raise in H; discriminate | discriminate].
Qed.

(** X22. The pass ends with [NameError] only at a record whose flag has
    the unmapped bit or the secondary bit: when it does, the stream holds
    a line that is not a header and whose second field is an integer with
    one of these bits. *)
Theorem name_error_means_unmapped (args : Args) (umi_list : list string)
    (sam : list string) (st : state) :
  inter_sam args umi_list st sam = Raise NameError ->
  exists line f1 flag,
    In line (records sam) /\
    Py.item (fields line) 1 = Ok f1 /\ Py.int_of_str f1 = Ok flag /\
    (Z.land flag 4 = 4 \/ Z.land flag 256 = 256).
Proof.
  revert st; induction sam as [| line rest IH]; intros st H;
    [discriminate |].
  simpl in H; apply bind_raise_inv in H.
  rewrite records_cons.
  destruct H as [H | (st1 & _ & H)].
  - unfold inter_sam_line in H.
    destruct (Py.startswith "@" line) eqn:Hh; [discriminate |].
    simpl in H; apply bind_raise_inv in H.
    destruct H as [H | (r & Hr & H)].
    + destruct (sam_info_init_name_error _ _ _ H) as (f1 & flag & H1 & Hf & Hb).
      exists line, f1, flag; split; [| auto].
      apply in_or_app; left; unfold records, is_header; simpl.
      rewrite Hh; left; reflexivity.
    + exfalso.
      rewrite (sam_info_init_usable _ _ _ _ Hr) in H.
      destruct (String.eqb (self_BC r) EmptyString); [discriminate |].
      destruct (dict_get (key_of r) (place st)) as [cur |]; [| discriminate].
      destruct (qual args);
        [destruct (Py.str_lt (snd cur) (self_qual_score r)) |];
        discriminate.
  - destruct (IH _ H) as (l & f1 & flag & Hin & Hrest).
    exists l, f1, flag; split; [apply in_or_app; right; exact Hin | exact Hrest].
Qed.

Lemma name_error_means_unmapped_witness :
  exists line f1 flag,
    In line (records Sample.scenario) /\
    Py.item (fields line) 1 = Ok f1 /\ Py.int_of_str f1 = Ok flag /\
    (Z.land flag 4 = 4 \/ Z.land flag 256 = 256).
Proof.
  apply (name_error_means_unmapped Sample.quality_mode [] Sample.scenario
           initial_state).
  vm_compute; reflexivity.
Defined.

(** ** The order of the stream under the quality option *)

Lemma str_lt_antisym (a b : string) :
  Py.str_lt a b = false -> Py.str_lt b a = false -> a = b.
Proof.
  unfold Py.str_lt, String.ltb; intros H1 H2.
  rewrite String.compare_antisym in H2.
  destruct (String.compare a b) eqn:E; simpl in *; try discriminate.
  apply String.compare_eq_iff; exact E.
Qed.

Lemma colliding_perm (args : Args) (umi_list : list string) (k : key)
    (sam1 sam2 : list string) :
  Permutation sam1 sam2 ->
  Permutation (colliding args umi_list k sam1) (colliding args umi_list k sam2).
Proof.
  induction 1 as [| x l l' _ IH | x y l | l l' l'' _ IH1 _ IH2].
  - constructor.
  - rewrite (colliding_cons _ _ _ x l), (colliding_cons _ _ _ x l').
    apply Permutation_app_head; exact IH.
  - rewrite (colliding_cons _ _ _ y (x :: l)), (colliding_cons _ _ _ x l),
      (colliding_cons _ _ _ x (y :: l)), (colliding_cons _ _ _ y l).
    rewrite !app_assoc; apply Permutation_app_tail, Permutation_app_comm.
  - eapply Permutation_trans; eauto.
Qed.

Lemma forallb_perm {A : Type} (f : A -> bool) (l1 l2 : list A) :
  Permutation l1 l2 -> forallb f l1 = forallb f l2.
Proof.
  induction 1; simpl; try congruence.
  destruct (f x), (f y); reflexivity.
Qed.

(** Under the quality option, no colliding record has a quality above
    that of the survivor. *)
Lemma keep_max (args : Args) (l : list entry) (c r x : entry) :
  qual args = true ->
  fold_left (keep args) l (Some c) = Some r ->
  In r (c :: l) /\ (In x (c :: l) -> Py.str_lt (snd r) (snd x) = false).
Proof.
  intros Hq Hr.
  destruct (keep_best args l c r Hq Hr) as (before & after & Hs & Hb & Ha).
  rewrite Hs; split; [apply in_or_app; right; left; reflexivity |].
  intros Hin; apply in_app_or in Hin; destruct Hin as [Hin | [<- | Hin]].
  - apply str_lt_asym; rewrite Forall_forall in Hb; apply Hb; exact Hin.
  - apply str_lt_irrefl.
  - rewrite Forall_forall in Ha; specialize (Ha _ Hin).
    unfold str_ge in Ha; apply negb_true_iff in Ha; exact Ha.
Qed.

(** X23. Under the quality option the quality kept for a key does not
    depend on the order of the stream: when the pass completes on a
    stream, it completes on every rearrangement of it, and the two
    dictionaries hold an entry for the same keys, with the same quality
    for each key. *)
Theorem kept_quality_ignores_order (args : Args) (umi_list : list string)
    (sam1 sam2 : list string) (s1 : state) (k : key) :
  qual args = true ->
  Permutation sam1 sam2 ->
  inter_sam args umi_list initial_state sam1 = Ok s1 ->
  exists s2,
    inter_sam args umi_list initial_state sam2 = Ok s2 /\
    option_map snd (dict_get k (place s2)) =
    option_map snd (dict_get k (place s1)).
Proof.
  intros Hq Hperm H1.
  assert (Hc : exists s2, inter_sam args umi_list initial_state sam2 = Ok s2).
  { apply pass_completes.
    rewrite <- (forallb_perm _ _ _ Hperm).
    apply (pass_completes args umi_list sam1 initial_state); eauto. }
  destruct Hc as [s2 H2]; exists s2; split; [exact H2 |].
  rewrite (pass_lookup _ _ _ _ _ k H1), (pass_lookup _ _ _ _ _ k H2).
  assert (Hp := colliding_perm args umi_list k _ _ Hperm).
  change (dict_get k (place initial_state)) with (@None entry).
  destruct (colliding args umi_list k sam1) as [| c1 l1] eqn:E1.
  - apply Permutation_nil in Hp; rewrite Hp; reflexivity.
  - destruct (colliding args umi_list k sam2) as [| c2 l2] eqn:E2.
    + apply Permutation_sym, Permutation_nil in Hp; discriminate.
    + simpl.
      destruct (keep_some args l1 c1) as [r1 Hr1].
      destruct (keep_some args l2 c2) as [r2 Hr2].
      rewrite Hr1, Hr2; simpl; f_equal.
      destruct (keep_max args l1 c1 r1 r2 Hq Hr1) as (Hin1 & Hmax1).
      destruct (keep_max args l2 c2 r2 r1 Hq Hr2) as (Hin2 & Hmax2).
      apply str_lt_antisym.
      * apply Hmax2; eapply Permutation_in; [exact Hp | exact Hin1].
      * apply Hmax1; eapply Permutation_in;
          [apply Permutation_sym; exact Hp | exact Hin2].
Qed.

Lemma kept_quality_ignores_order_witness :
  exists s2,
    inter_sam Sample.quality_mode [] initial_state Cases.stream_reordered =
      Ok s2 /\
    option_map snd (dict_get Sample.K1 (place s2)) =
    option_map snd (dict_get Sample.K1 (place Cases.after_stream_quality)).
Proof.
  apply (kept_quality_ignores_order Sample.quality_mode [] Cases.stream
           Cases.stream_reordered Cases.after_stream_quality Sample.K1).
  - reflexivity.
  - unfold Cases.stream, Cases.stream_reordered.
    apply Permutation_sym.
    apply (Permutation_cons_app
             [Cases.hd_line; Sample.k1_q30; Cases.sq_line; Sample.k1_q40;
              Sample.k2_unique] [Cases.empty_tag]).
    apply (Permutation_cons_app [] _ Cases.hd_line).
    apply (Permutation_cons_app
             [Sample.k1_q30; Cases.sq_line; Sample.k1_q40] [Cases.empty_tag]).
    apply (Permutation_cons_app [Sample.k1_q30; Cases.sq_line] [Cases.empty_tag]).
    apply (Permutation_cons_app [Sample.k1_q30] [Cases.empty_tag]).
    apply (Permutation_cons_app [Sample.k1_q30] []).
    apply Permutation_refl.
  - vm_compute; reflexivity.
Defined.
